(** * The availability-set backend of the Azure cloud provider

    A shallow embedding of
    [vendor/k8s.io/legacy-cloud-providers/azure/azure_standard.go]:
    identifier building, name derivation, the security-rule priority
    allocator, the VM-set resolver and the backend-pool reconciler,
    together with the properties the specification states about them.

    Conventions of the embedding.
    - A Go [string] is a sequence of bytes: Rocq's [string].  [len] is
      [String.length].
    - A Go call either returns or panics: [go A].  Every pointer the
      source dereferences ([*x]) or compares with [nil] is an
      [option]; dereferencing [None] panics with [NilDereference].
    - A Go result pair [(v, err)] is a Rocq pair [(v, option error)].
    - Calls into the cloud (reading an interface, updating it) are
      parameters; the reconciler threads the cloud state and records
      every update it issues. *)

From stdpp Require Import gmap strings list.
From Stdlib Require Import Ascii ZArith Lia DecimalString Sorted Permutation.

Local Open Scope Z_scope.

(** ** The Go runtime and the parts of its library the source calls *)

Module Go.

Inductive panic : Type :=
| NilDereference
| OutOfRange.

Inductive go (A : Type) : Type :=
| Done (a : A)
| Panic (p : panic).

Arguments Done {A} a.
Arguments Panic {A} p.

Definition bind {A B : Type} (m : go A) (k : A -> go B) : go B :=
  match m with
  | Done a => k a
  | Panic p => Panic p
  end.

Notation "'let!' x ':=' m 'in' k" := (bind m (fun x => k))
  (at level 10, x pattern, m at level 100, k at level 200).
Notation "'let!' ( x , y ) ':=' m 'in' k" :=
  (bind m (fun r => let '(x, y) := r in k))
  (at level 10, x name, y name, m at level 100, k at level 200).

(** [*p] for a pointer [p]. *)
Definition deref {A : Type} (p : option A) : go A :=
  match p with
  | Some a => Done a
  | None => Panic NilDereference
  end.

(** [p != nil] *)
Definition notNil {A : Type} (p : option A) : bool :=
  match p with
  | Some _ => true
  | None => false
  end.

(** *** Bytes *)

Definition byte_in (lo hi : nat) (c : ascii) : bool :=
  let n := nat_of_ascii c in (Nat.leb lo n && Nat.leb n hi)%bool.

(** ['a' <= c && c <= 'z'] gives [c - ('a' - 'A')], and the converse. *)
Definition upper_byte (c : ascii) : ascii :=
  if byte_in 97 122 c then ascii_of_nat (nat_of_ascii c - 32) else c.

Definition lower_byte (c : ascii) : ascii :=
  if byte_in 65 90 c then ascii_of_nat (nat_of_ascii c + 32) else c.

(** [c < utf8.RuneSelf] *)
Definition ascii_byte (c : ascii) : bool := Nat.ltb (nat_of_ascii c) 128.

Fixpoint map_bytes (f : ascii -> ascii) (s : string) : string :=
  match s with
  | EmptyString => EmptyString
  | String c s' => String (f c) (map_bytes f s')
  end.

Fixpoint isASCII (s : string) : bool :=
  match s with
  | EmptyString => true
  | String c s' => (ascii_byte c && isASCII s')%bool
  end.

(** The comparison of two ASCII bytes in [EqualFold]: they are the
    same, or the smaller is a capital and the larger its small letter. *)
Definition fold_byte_eq (sr tr : ascii) : bool :=
  if Ascii.eqb tr sr then true
  else
    let '(sr, tr) :=
      if Nat.ltb (nat_of_ascii tr) (nat_of_ascii sr) then (tr, sr) else (sr, tr) in
    (byte_in 65 90 sr && Nat.eqb (nat_of_ascii tr) (nat_of_ascii sr + 32))%bool.

(** Two ASCII strings are equal under case folding when they have the
    same length and agree byte by byte up to the case of letters. *)
Fixpoint fold_eq (s t : string) : bool :=
  match s, t with
  | EmptyString, EmptyString => true
  | String a s', String b t' => (fold_byte_eq a b && fold_eq s' t')%bool
  | _, _ => false
  end.

(** Every byte, for properties of bytes checked by running them. *)
Definition all_bytes : list ascii := List.map ascii_of_nat (seq 0 256).

(** *** Unicode

    The case tables of package [unicode] and the decoding of UTF-8 are
    not part of the development.  [Unicode] stands for what the
    library does once a string leaves ASCII; every function below
    takes its ASCII path first, as the library does. *)

Class Unicode : Type := {
  unicode_ToUpper : string -> string;
  unicode_ToLower : string -> string;
  unicode_EqualFold : string -> string -> bool;
  (** [explode(s, -1)]: [s] cut into its UTF-8 sequences *)
  utf8_explode : string -> list string;
  unicode_EqualFold_refl : forall s, unicode_EqualFold s s = true
}.

(** The reading of [Unicode] under which every byte is a caseless
    character of its own.  It is exact on ASCII strings, where the
    library never reaches the tables. *)
Fixpoint bytes_of (s : string) : list string :=
  match s with
  | EmptyString => []
  | String c s' => String c EmptyString :: bytes_of s'
  end.

#[export] Program Instance Bytewise : Unicode := {|
  unicode_ToUpper := fun s => s;
  unicode_ToLower := fun s => s;
  unicode_EqualFold := String.eqb;
  utf8_explode := bytes_of
|}.
Next Obligation. intros s. apply String.eqb_refl. Qed.

Section Strings.

Context {U : Unicode}.

(** [strings.ToUpper] *)
Definition ToUpper (s : string) : string :=
  if isASCII s then map_bytes upper_byte s else unicode_ToUpper s.

(** [strings.ToLower] *)
Definition ToLower (s : string) : string :=
  if isASCII s then map_bytes lower_byte s else unicode_ToLower s.

(** [strings.EqualFold] *)
Definition EqualFold (s t : string) : bool :=
  if (isASCII s && isASCII t)%bool then fold_eq s t else unicode_EqualFold s t.

(** [strings.HasPrefix(s, prefix)] *)
Definition HasPrefix (s prefix : string) : bool := String.prefix prefix s.

(** [strings.Split(s, sep)] for a separator that is not empty: the
    separators are found from the left and do not overlap.  [skip]
    counts the bytes of a separator still to be passed over. *)
Fixpoint genSplit (sep : string) (skip : nat) (s : string) : list string :=
  match s with
  | EmptyString => [EmptyString]
  | String c s' =>
      match skip with
      | S k => genSplit sep k s'
      | O =>
          if String.prefix sep s
          then EmptyString :: genSplit sep (String.length sep - 1) s'
          else match genSplit sep 0 s' with
               | piece :: rest => String c piece :: rest
               | [] => [String c EmptyString]
               end
      end
  end.

Definition Split (s sep : string) : list string :=
  match sep with
  | EmptyString => utf8_explode s
  | _ => genSplit sep 0 s
  end.

End Strings.

(** [s[:n]]: the slice panics when [n] is negative or beyond [len(s)]. *)
Definition slice_to (s : string) (n : Z) : go string :=
  if (n <? 0) || (Z.of_nat (String.length s) <? n)
  then Panic OutOfRange
  else Done (String.substring 0 (Z.to_nat n) s).

(** [a[i]] *)
Definition index {A : Type} (a : list A) (i : Z) : go A :=
  if i <? 0 then Panic OutOfRange
  else match a !! Z.to_nat i with
       | Some x => Done x
       | None => Panic OutOfRange
       end.

(** The verb [%d] of [fmt.Sprintf]. *)
Definition itoa (n : Z) : string := NilZero.string_of_int (Z.to_int n).

(** [sort.Strings]: strings compare byte by byte, so the sorted
    arrangement of a slice is unique; insertion gives it. *)
Fixpoint insert_sorted (x : string) (l : list string) : list string :=
  match l with
  | [] => [x]
  | y :: l' => if String.leb x y then x :: l else y :: insert_sorted x l'
  end.

Fixpoint sort_Strings (l : list string) : list string :=
  match l with
  | [] => []
  | x :: l' => insert_sorted x (sort_Strings l')
  end.

(** *** Regular expressions

    The patterns of the source are sequences of literals, of groups
    of any bytes that keep nothing and of groups of one byte or more
    that are captured.  Matching backtracks, each repetition trying its longest
    reading first; [.] is any byte but a newline. *)

Definition newline (c : ascii) : bool := Nat.eqb (nat_of_ascii c) 10.

Fixpoint drop_bytes (n : nat) (s : string) : string :=
  match n, s with
  | S n', String _ s' => drop_bytes n' s'
  | _, _ => s
  end.

Definition re_lit {R : Type} (l : string) (k : string -> option R) (s : string) : option R :=
  if String.prefix l s then k (drop_bytes (String.length l) s) else None.

(** The group that keeps nothing: any bytes, as many as possible. *)
Fixpoint re_star {R : Type} (k : string -> option R) (s : string) : option R :=
  match s with
  | EmptyString => k s
  | String c s' =>
      if newline c then k s
      else match re_star k s' with
           | Some r => Some r
           | None => k s
           end
  end.

(** The same with the text kept; [acc] is what the group holds so far. *)
Fixpoint re_star_group {R : Type} (k : string -> string -> option R)
    (acc s : string) : option R :=
  match s with
  | EmptyString => k acc s
  | String c s' =>
      if newline c then k acc s
      else match re_star_group k (acc +:+ String c EmptyString) s' with
           | Some r => Some r
           | None => k acc s
           end
  end.

(** The capturing group of one byte or more. *)
Definition re_plus_group {R : Type} (k : string -> string -> option R)
    (s : string) : option R :=
  match s with
  | EmptyString => None
  | String c s' =>
      if newline c then None else re_star_group k (String c EmptyString) s'
  end.

End Go.

Import Go.

(** ** The data the provider works on *)

(** The errors of the file, one constructor for each message.  The
    errors of the cloud clients are carried as they come. *)
Inductive error : Type :=
| errNotInVMSet
    (* "vm is not in the vmset" *)
| MalformedIdentifier
    (* "resource name was missing from identifier" *)
| ResourceGroupNotExtracted (nicID : string)
    (* "error of extracting resourceGroup from nicID %q" *)
| BackendPoolIDWrongFormat (backendPoolID : string)
| NoPrimaryNic (vmName : string)
    (* "failed to find a primary nic for the vm. vmname=%q" *)
| IPConfigurationsNil (nicName : string)
    (* "nic.IPConfigurations for nic (nicname=%q) is nil" *)
| NoPrimaryIPConfig (nicName : string)
    (* "failed to determine the primary ipconfig. nicname=%q" *)
| NoIPConfigOfFamily (IPv6 : bool) (nicName : string)
    (* "failed to determine the ipconfig(IPv6=%v). nicname=%q" *)
| PriorityExhausted
    (* "securityGroup priorities are exhausted" *)
| NodeHasNoAvailabilitySets (nodeName : string)
    (* "Node (%s) - has no availability sets" *)
| NoGroupsFound (nodeCount : nat)
    (* "No availability sets found for nodes, node count(%d)" *)
| LoadBalancerModeEmpty
    (* "service annotation for LoadBalancerMode is empty, ..." *)
| UnknownVMGroup (name : string)
    (* "availability set (%s) - not found" *)
| ClientError (message : string).

(** [v1.Service], the fields the file reads. *)
Record Service : Type := {
  Namespace : string;
  svc_Name : string;
  ClusterIP : string;
  Annotations : gmap string string
}.

(** [v1.Node] *)
Record Node : Type := {
  node_Name : string;
  Labels : gmap string string
}.

Record SubResource : Type := { sub_ID : option string }.

Record NetworkInterfaceReference : Type := {
  ref_ID : option string;
  ref_Primary : option bool
}.

(** [compute.VirtualMachine] *)
Record VirtualMachine : Type := {
  vm_Name : option string;
  AvailabilitySet : option SubResource;
  NetworkInterfaces : option (list NetworkInterfaceReference)
}.

(** [network.BackendAddressPool] *)
Record BackendAddressPool : Type := { pool_ID : option string }.

(** [network.InterfaceIPConfiguration].  The SDK keeps these fields
    in a block of properties that a configuration points to, and that
    a copy of the configuration shares; the block is given in place.
    [PrivateIPAddressVersion] is a string, ["IPv4"] or ["IPv6"]. *)
Record InterfaceIPConfiguration : Type := {
  Primary : option bool;
  PrivateIPAddress : option string;
  PrivateIPAddressVersion : string;
  LoadBalancerBackendAddressPools : option (list BackendAddressPool)
}.

(** [network.Interface] *)
Record Interface : Type := {
  nic_Name : option string;
  ProvisioningState : option string;
  IPConfigurations : option (list InterfaceIPConfiguration)
}.

(** [network.Interface{}] *)
Definition noInterface : Interface :=
  {| nic_Name := None; ProvisioningState := None; IPConfigurations := None |}.

(** [network.SecurityRule] *)
Record SecurityRule : Type := { Priority : option Z }.

(** [network.FrontendIPConfiguration] *)
Record FrontendIPConfiguration : Type := { fip_Name : option string }.

(** [compute.VirtualMachineScaleSetVM]: this backend only ever returns
    a nil pointer to one. *)
Record VirtualMachineScaleSetVM : Type := { }.

(** [*Cloud]: the configuration and the clients of the cloud, over the
    state [W] of the cloud.  Its methods that live in other files are
    fields. *)
Record Cloud (W : Type) : Type := {
  SubscriptionID : string;
  ResourceGroup : string;
  PrimaryAvailabilitySetName : string;
  ipv6DualStackEnabled : bool;
  useStandardLoadBalancer : bool;
  GetLoadBalancerName : string -> Service -> string;
  GetVirtualMachineWithRetry : W -> string -> VirtualMachine * option error;
  GetNodeResourceGroup : string -> string * option error;
  InterfacesClient_Get : W -> string -> string -> Interface * option error;
  CreateOrUpdateInterface : W -> Service -> Interface -> W * option error;
  ListVirtualMachines : W -> string -> list VirtualMachine * option error
}.

Arguments SubscriptionID {W} _.
Arguments ResourceGroup {W} _.
Arguments PrimaryAvailabilitySetName {W} _.
Arguments ipv6DualStackEnabled {W} _.
Arguments useStandardLoadBalancer {W} _.
Arguments GetLoadBalancerName {W} _ _ _.
Arguments GetVirtualMachineWithRetry {W} _ _ _.
Arguments GetNodeResourceGroup {W} _ _.
Arguments InterfacesClient_Get {W} _ _ _ _.
Arguments CreateOrUpdateInterface {W} _ _ _ _.
Arguments ListVirtualMachines {W} _ _ _.

(** The functions of the package, and of [k8s.io/utils/net], that the
    file calls and that are defined elsewhere. *)
Record Elsewhere : Type := {
  (** [subnet(service)]: the subnet a service asks for, if any *)
  subnet : Service -> option string;
  (** [getServiceLoadBalancerMode(service)]: [(hasMode, isAuto, names)] *)
  getServiceLoadBalancerMode : Service -> bool * bool * list string;
  mapNodeNameToVMName : string -> string;
  (** [utilnet.IsIPv6String] *)
  IsIPv6String : string -> bool
}.

(** ** Constants *)

Definition loadBalancerMinimumPriority : Z := 500.
Definition loadBalancerMaximumPriority : Z := 4096.
Definition nodeLabelRole : string := "kubernetes.io/role".
Definition nicFailedState : string := "Failed".
Definition loadBalancerRuleNameMaxLength : Z := 80.
Definition IPv4 : string := "IPv4".
Definition IPv6 : string := "IPv6".

(** [fmt.Sprintf(machineIDTemplate, a, b, c)] *)
Definition machineIDTemplate (a b c : string) : string :=
  "/subscriptions/" +:+ a +:+ "/resourceGroups/" +:+ b
  +:+ "/providers/Microsoft.Compute/virtualMachines/" +:+ c.

(** [fmt.Sprintf(availabilitySetIDTemplate, a, b, c)] *)
Definition availabilitySetIDTemplate (a b c : string) : string :=
  "/subscriptions/" +:+ a +:+ "/resourceGroups/" +:+ b
  +:+ "/providers/Microsoft.Compute/availabilitySets/" +:+ c.

(** [len(s)] as a Go [int] *)
Definition len (s : string) : Z := Z.of_nat (String.length s).

(** Addition on [int32]. *)
Definition add32 (a b : Z) : Z :=
  (a + b + 2 ^ 31) mod 2 ^ 32 - 2 ^ 31.

(** [FindStringSubmatch] for a pattern with one group: the text
    matched and the text of the group, or nothing. *)
Definition submatch (s : string) (m : option (string * string)) : list string :=
  match m with
  | Some (group, rest) =>
      [String.substring 0 (String.length s - String.length rest) s; group]
  | None => []
  end.

(** [backendPoolIDRE.FindStringSubmatch]; the pattern starts at the
    beginning of the text and keeps the load balancer's name. *)
Definition backendPoolIDRE (s : string) : list string :=
  submatch s
    (re_lit "/subscriptions/"
      (re_star (re_lit "/resourceGroups/"
        (re_star (re_lit "/providers/Microsoft.Network/loadBalancers/"
          (re_plus_group (fun group =>
             re_lit "/backendAddressPools/"
               (re_star (fun rest => Some (group, rest))))))))) s).

(** The pattern of [nicResourceGroupRE] tried at the beginning of [s]. *)
Definition nicResourceGroupRE_here (s : string) : option (string * string) :=
  re_star (re_lit "/subscriptions/"
    (re_star (re_lit "/resourceGroups/"
      (re_plus_group (fun group =>
         re_lit "/providers/Microsoft.Network/networkInterfaces/"
           (re_star (fun rest => Some (group, rest)))))))) s.

(** [nicResourceGroupRE.FindStringSubmatch]: the pattern is not tied
    to the beginning, the leftmost match wins. *)
Fixpoint nicResourceGroupRE_from (s : string) : option (string * string * string) :=
  match nicResourceGroupRE_here s with
  | Some (group, rest) => Some (s, group, rest)
  | None =>
      match s with
      | EmptyString => None
      | String _ s' => nicResourceGroupRE_from s'
      end
  end.

Definition nicResourceGroupRE (s : string) : list string :=
  match nicResourceGroupRE_from s with
  | Some (from, group, rest) => submatch from (Some (group, rest))
  | None => []
  end.

(** ** The functions of [azure_standard.go] *)

Section Standard.

Context {U : Unicode} {W : Type} (az : Cloud W) (pkg : Elsewhere).

(** *** Identifiers *)

Definition getStandardMachineID (subscriptionID resourceGroup machineName : string) : string :=
  machineIDTemplate subscriptionID (ToLower resourceGroup) machineName.

Definition getAvailabilitySetID (resourceGroup availabilitySetName : string) : string :=
  availabilitySetIDTemplate (SubscriptionID az) resourceGroup availabilitySetName.

Definition isMasterNode (node : Node) : bool :=
  match Labels node !! nodeLabelRole with
  | Some val => String.eqb val "master"
  | None => false
  end.

Definition getLastSegment (ID separator : string) : go (string * option error) :=
  let parts := Split ID separator in
  let! name := index parts (Z.of_nat (List.length parts) - 1) in
  if len name =? 0
  then Done (EmptyString, Some MalformedIdentifier)
  else Done (name, None).

(** The loop of [getPrimaryInterfaceID] over the references. *)
Fixpoint primaryReference (refs : list NetworkInterfaceReference) : go (option string) :=
  match refs with
  | [] => Done None
  | ref :: refs' =>
      let! primary := deref (ref_Primary ref) in
      if primary : bool
      then let! id := deref (ref_ID ref) in Done (Some id)
      else primaryReference refs'
  end.

Definition getPrimaryInterfaceID (machine : VirtualMachine) : go (string * option error) :=
  let! refs := deref (NetworkInterfaces machine) in
  if Z.of_nat (List.length refs) =? 1
  then
    let! ref := index refs 0 in
    let! id := deref (ref_ID ref) in
    Done (id, None)
  else
    let! found := primaryReference refs in
    match found with
    | Some id => Done (id, None)
    | None =>
        let! name := deref (vm_Name machine) in
        Done (EmptyString, Some (NoPrimaryNic name))
    end.

(** The loop of [getPrimaryIPConfig]; [i] is the position of the first
    configuration of [refs] in the interface. *)
Fixpoint primaryIPConfigFrom (i : nat) (refs : list InterfaceIPConfiguration) : go (option nat) :=
  match refs with
  | [] => Done None
  | ref :: refs' =>
      let! primary := deref (Primary ref) in
      if primary : bool then Done (Some i) else primaryIPConfigFrom (S i) refs'
  end.

(** [getPrimaryIPConfig].  The configuration it points to shares its
    properties with the one held by the interface, so the pointer is
    given as the position of that configuration in
    [nic.IPConfigurations]. *)
Definition getPrimaryIPConfig (nic : Interface) : go (option nat * option error) :=
  match IPConfigurations nic with
  | None =>
      let! name := deref (nic_Name nic) in
      Done (None, Some (IPConfigurationsNil name))
  | Some configs =>
      if Z.of_nat (List.length configs) =? 1
      then Done (Some 0%nat, None)
      else
        let! found := primaryIPConfigFrom 0 configs in
        match found with
        | Some i => Done (Some i, None)
        | None =>
            let! name := deref (nic_Name nic) in
            Done (None, Some (NoPrimaryIPConfig name))
        end
  end.

(** The loop of [getIPConfigByIPFamily]. *)
Fixpoint ipConfigOfVersionFrom (ipVersion : string) (i : nat)
    (refs : list InterfaceIPConfiguration) : option nat :=
  match refs with
  | [] => None
  | ref :: refs' =>
      if (notNil (PrivateIPAddress ref)
          && String.eqb (PrivateIPAddressVersion ref) ipVersion)%bool
      then Some i
      else ipConfigOfVersionFrom ipVersion (S i) refs'
  end.

Definition getIPConfigByIPFamily (nic : Interface) (v6 : bool) : go (option nat * option error) :=
  match IPConfigurations nic with
  | None =>
      let! name := deref (nic_Name nic) in
      Done (None, Some (IPConfigurationsNil name))
  | Some configs =>
      let ipVersion := if v6 then IPv6 else IPv4 in
      match ipConfigOfVersionFrom ipVersion 0 configs with
      | Some i => Done (Some i, None)
      | None =>
          let! name := deref (nic_Name nic) in
          Done (None, Some (NoIPConfigOfFamily v6 name))
      end
  end.

(** *** Names *)

Definition getBackendPoolName (clusterName : string) (service : Service) : string :=
  let v6 := IsIPv6String pkg (ClusterIP service) in
  if v6 then clusterName +:+ "-IPv6" else clusterName.

Definition getRulePrefix (service : Service) : string :=
  GetLoadBalancerName az EmptyString service.

(** [ruleName] of [getLoadBalancerRuleName]: the name before any
    subnet is put in. *)
Definition baseRuleName (service : Service) (protocol : string) (port : Z) : string :=
  getRulePrefix service +:+ "-" +:+ protocol +:+ "-" +:+ itoa port.

Definition getLoadBalancerRuleName (service : Service) (protocol : string) (port : Z) : go string :=
  let prefix := getRulePrefix service in
  let ruleName := prefix +:+ "-" +:+ protocol +:+ "-" +:+ itoa port in
  match subnet pkg service with
  | None => Done ruleName
  | Some subnet =>
      let! subnetSegment :=
        (if len ruleName + len subnet + 1 >? loadBalancerRuleNameMaxLength
         then slice_to subnet (loadBalancerRuleNameMaxLength - len ruleName - 1)
         else Done subnet) in
      Done (prefix +:+ "-" +:+ subnetSegment +:+ "-" +:+ protocol +:+ "-" +:+ itoa port)
  end.

Definition getServiceName (service : Service) : string :=
  Namespace service +:+ "/" +:+ svc_Name service.

Definition serviceOwnsRule (service : Service) (rule : string) : bool :=
  let prefix := getRulePrefix service in
  HasPrefix (ToUpper rule) (ToUpper prefix).

Definition serviceOwnsFrontendIP (fip : FrontendIPConfiguration) (service : Service) : go bool :=
  let baseName := GetLoadBalancerName az EmptyString service in
  let! name := deref (fip_Name fip) in
  Done (HasPrefix name baseName).

(** *** Priorities *)

(** The inner loop of [getNextAvailablePriority]: does a rule hold
    [smallest]? *)
Fixpoint priorityTaken (smallest : Z) (rules : list SecurityRule) : go bool :=
  match rules with
  | [] => Done false
  | rule :: rules' =>
      let! priority := deref (Priority rule) in
      if priority =? smallest then Done true else priorityTaken smallest rules'
  end.

(** The outer loop.  It runs while [smallest] is below the maximum and
    [smallest] grows at each turn, so [turns] turns are enough once
    [turns] reaches the maximum from [smallest]. *)
Fixpoint nextPriorityFrom (turns : nat) (smallest : Z) (rules : list SecurityRule)
    : go (Z * option error) :=
  if smallest <? loadBalancerMaximumPriority
  then
    match turns with
    | S turns' =>
        let! taken := priorityTaken smallest rules in
        if taken : bool
        then nextPriorityFrom turns' (add32 smallest 1) rules
        else Done (smallest, None)
    | O => Done (-1, Some PriorityExhausted)
    end
  else Done (-1, Some PriorityExhausted).

Definition getNextAvailablePriority (rules : list SecurityRule) : go (Z * option error) :=
  nextPriorityFrom
    (Z.to_nat (loadBalancerMaximumPriority - loadBalancerMinimumPriority))
    loadBalancerMinimumPriority rules.

(** *** The VM-set resolver *)

(** The first loop of [getAgentPoolAvailabiliySets]: the availability
    set of every machine that has one, by machine name. *)
Fixpoint vmNameToAvailabilitySetID (vms : list VirtualMachine) (m : gmap string string)
    : go (gmap string string) :=
  match vms with
  | [] => Done m
  | vm :: vms' =>
      match AvailabilitySet vm with
      | Some availabilitySet =>
          let! name := deref (vm_Name vm) in
          let! id := deref (sub_ID availabilitySet) in
          vmNameToAvailabilitySetID vms' (<[name := id]> m)
      | None => vmNameToAvailabilitySetID vms' m
      end
  end.

(** The second loop, over the nodes.  [availabilitySetIDs] is the set
    the loop consults; the loop never adds to it. *)
Fixpoint agentPoolAvailabilitySetsOf (m : gmap string string)
    (availabilitySetIDs : gset string) (agentPoolAvailabilitySets : list string)
    (nodes : list Node) : go (option (list string) * option error) :=
  match nodes with
  | [] => Done (Some agentPoolAvailabilitySets, None)
  | node :: nodes' =>
      let nodeName := node_Name node in
      if isMasterNode node
      then agentPoolAvailabilitySetsOf m availabilitySetIDs agentPoolAvailabilitySets nodes'
      else
        match m !! nodeName with
        | None => Done (None, Some (NodeHasNoAvailabilitySets nodeName))
        | Some asID =>
            if bool_decide (asID ∈ availabilitySetIDs)
            then agentPoolAvailabilitySetsOf m availabilitySetIDs agentPoolAvailabilitySets nodes'
            else
              let! (asName, err) := getLastSegment asID "/" in
              match err with
              | Some e => Done (None, Some e)
              | None =>
                  let asName := ToLower asName in
                  agentPoolAvailabilitySetsOf m availabilitySetIDs
                    (agentPoolAvailabilitySets ++ [asName]) nodes'
              end
        end
  end.

Definition getAgentPoolAvailabiliySets (w : W) (nodes : list Node)
    : go (option (list string) * option error) :=
  let '(vms, err) := ListVirtualMachines az w (ResourceGroup az) in
  match err with
  | Some e => Done (None, Some e)
  | None =>
      let! m := vmNameToAvailabilitySetID vms ∅ in
      agentPoolAvailabilitySetsOf m ∅ [] nodes
  end.

(** The inner loop of the validation in [GetVMSetNames]: the first
    availability set equal to [name] up to case. *)
Fixpoint firstEqualFold (availabilitySetNames : list string) (name : string) : option string :=
  match availabilitySetNames with
  | [] => None
  | candidate :: rest =>
      if EqualFold candidate name then Some candidate else firstEqualFold rest name
  end.

(** The outer loop.  [found] is declared before the loop and is only
    ever set; an entry that is matched is overwritten in place, so the
    slice handed back is the entries as rewritten. *)
Fixpoint validateAvailabilitySets (found : bool) (availabilitySetNames : list string)
    (serviceAvailabilitySetNames : list string) : list string * option error :=
  match serviceAvailabilitySetNames with
  | [] => ([], None)
  | name :: rest =>
      let '(found, name) :=
        match firstEqualFold availabilitySetNames name with
        | Some candidate => (true, candidate)
        | None => (found, name)
        end in
      if negb found
      then ([], Some (UnknownVMGroup name))
      else
        let '(names, err) := validateAvailabilitySets found availabilitySetNames rest in
        (name :: names, err)
  end.

Definition GetVMSetNames (w : W) (service : Service) (nodes : list Node)
    : go (option (list string) * option error) :=
  let '(hasMode, isAuto, serviceAvailabilitySetNames) :=
    getServiceLoadBalancerMode pkg service in
  if negb hasMode
  then Done (Some [PrimaryAvailabilitySetName az], None)
  else
    let! (availabilitySetNames, err) := getAgentPoolAvailabiliySets w nodes in
    match err with
    | Some e => Done (None, Some e)
    | None =>
        let! names := deref availabilitySetNames in
        if Z.of_nat (List.length names) =? 0
        then Done (None, Some (NoGroupsFound (List.length nodes)))
        else
          let names := sort_Strings names in
          if negb isAuto
          then
            if Z.of_nat (List.length serviceAvailabilitySetNames) =? 0
            then Done (None, Some LoadBalancerModeEmpty)
            else
              match validateAvailabilitySets false names serviceAvailabilitySetNames with
              | (_, Some e) => Done (None, Some e)
              | (validated, None) => Done (Some validated, None)
              end
          else Done (Some names, None)
    end.

(** *** The backend-pool reconciler *)

Definition extractResourceGroupByNicID (nicID : string) : string * option error :=
  let matches := nicResourceGroupRE nicID in
  match matches with
  | [_; group] => (group, None)
  | _ => (EmptyString, Some (ResourceGroupNotExtracted nicID))
  end.

Definition getPrimaryInterfaceWithVMSet (w : W) (nodeName vmSetName : string)
    : go (Interface * option error) :=
  let '(machine, err) := GetVirtualMachineWithRetry az w nodeName in
  match err with
  | Some e => Done (noInterface, Some e)
  | None =>
  let! (primaryNicID, err) := getPrimaryInterfaceID machine in
  match err with
  | Some e => Done (noInterface, Some e)
  | None =>
  let! (nicName, err) := getLastSegment primaryNicID "/" in
  match err with
  | Some e => Done (noInterface, Some e)
  | None =>
  let '(nodeResourceGroup, err) := GetNodeResourceGroup az nodeName in
  match err with
  | Some e => Done (noInterface, Some e)
  | None =>
  let! notInSet :=
    (if (negb (String.eqb vmSetName EmptyString) && negb (useStandardLoadBalancer az))%bool
     then
       let expectedAvailabilitySetName := getAvailabilitySetID nodeResourceGroup vmSetName in
       match AvailabilitySet machine with
       | None => Done true
       | Some availabilitySet =>
           let! id := deref (sub_ID availabilitySet) in
           Done (negb (EqualFold id expectedAvailabilitySetName))
       end
     else Done false) in
  if notInSet : bool
  then Done (noInterface, Some errNotInVMSet)
  else
  let '(nicResourceGroup, err) := extractResourceGroupByNicID primaryNicID in
  match err with
  | Some e => Done (noInterface, Some e)
  | None =>
  let '(nic, rerr) := InterfacesClient_Get az w nicResourceGroup nicName in
  match rerr with
  | Some e => Done (noInterface, Some e)
  | None => Done (nic, None)
  end end end end end end.

(** The name of the load balancer a backend pool belongs to, read with
    [backendPoolIDRE]. *)
Definition parentLoadBalancer (backendPoolID : string) : option string :=
  match backendPoolIDRE backendPoolID with
  | [_; lbName] => Some lbName
  | _ => None
  end.

Definition onOtherLoadBalancer (lbName : string) (backendPoolID : string) : option string :=
  match parentLoadBalancer backendPoolID with
  | Some other => if String.eqb other lbName then None else Some other
  | None => None
  end.

(** Modelled from the spec: [isBackendPoolOnSameLB] is called by
    [EnsureHostInPool] and defined in another file.  The spec has the
    node skipped "if any existing membership belongs to a different
    load balancer than the target pool's parent load balancer", and an
    identifier that does not match its pattern is an error.  The
    results are [(isSameLB, oldLBName, err)]. *)
Definition isBackendPoolOnSameLB (newBackendPoolID : string)
    (existingBackendPools : list string) : bool * string * option error :=
  match parentLoadBalancer newBackendPoolID with
  | None => (false, EmptyString, Some (BackendPoolIDWrongFormat newBackendPoolID))
  | Some newLBName =>
      match omap (onOtherLoadBalancer newLBName) existingBackendPools with
      | lbName :: _ => (false, lbName, None)
      | [] =>
          match List.find (fun id => negb (notNil (parentLoadBalancer id)))
                  existingBackendPools with
          | Some id => (false, EmptyString, Some (BackendPoolIDWrongFormat id))
          | None => (true, EmptyString, None)
          end
      end
  end.

(** What [EnsureHostInPool] returns beside its error. *)
Definition hostResult (err : option error)
    : string * string * string * option VirtualMachineScaleSetVM * option error :=
  (EmptyString, EmptyString, EmptyString, None, err).

(** The loop that looks for the pool among the memberships. *)
Fixpoint poolFound (backendPoolID : string) (pools : list BackendAddressPool) : go bool :=
  match pools with
  | [] => Done false
  | existingPool :: pools' =>
      let! id := deref (pool_ID existingPool) in
      if EqualFold backendPoolID id then Done true else poolFound backendPoolID pools'
  end.

(** [primaryIPConfig.LoadBalancerBackendAddressPools = &newBackendPools]
    seen from the interface. *)
Definition withBackendPools (nic : Interface) (i : nat)
    (newBackendPools : list BackendAddressPool) : Interface :=
  {| nic_Name := nic_Name nic;
     ProvisioningState := ProvisioningState nic;
     IPConfigurations :=
       option_map
         (alter (fun config =>
            {| Primary := Primary config;
               PrivateIPAddress := PrivateIPAddress config;
               PrivateIPAddressVersion := PrivateIPAddressVersion config;
               LoadBalancerBackendAddressPools := Some newBackendPools |}) i)
         (IPConfigurations nic) |}.

(** [nicFailed]: [nic.ProvisioningState != nil && *nic.ProvisioningState == nicFailedState] *)
Definition nicFailed (nic : Interface) : bool :=
  match ProvisioningState nic with
  | Some state => String.eqb state nicFailedState
  | None => false
  end.

(** The choice of the IP configuration in [EnsureHostInPool]. *)
Definition primaryIPConfigOf (service : Service) (nic : Interface)
    : go (option nat * option error) :=
  let ipv6 := IsIPv6String pkg (ClusterIP service) in
  if (negb (ipv6DualStackEnabled az) && negb ipv6)%bool
  then getPrimaryIPConfig nic
  else getIPConfigByIPFamily nic ipv6.

(** The memberships of an IP configuration, a nil slice being none:
    [newBackendPools] at the beginning of the scan in
    [EnsureHostInPool]. *)
Definition memberships (config : InterfaceIPConfiguration) : list BackendAddressPool :=
  match LoadBalancerBackendAddressPools config with
  | Some pools => pools
  | None => []
  end.

(** [EnsureHostInPool] gives back the state of the cloud, the updates
    of interfaces it issued, and its results. *)
Definition EnsureHostInPool (w : W) (service : Service) (nodeName : string)
    (backendPoolID : string) (vmSetName : string) (isInternal : bool)
    : go (W * list Interface
          * (string * string * string * option VirtualMachineScaleSetVM * option error)) :=
  let vmName := mapNodeNameToVMName pkg nodeName in
  let serviceName := getServiceName service in
  let! (nic, err) := getPrimaryInterfaceWithVMSet w vmName vmSetName in
  match err with
  | Some errNotInVMSet => Done (w, [], hostResult None)
  | Some e => Done (w, [], hostResult (Some e))
  | None =>
  if nicFailed nic
  then
    let! _ := deref (nic_Name nic) in
    Done (w, [], hostResult None)
  else
  let! (primaryIPConfig, err) := primaryIPConfigOf service nic in
  match err with
  | Some e => Done (w, [], hostResult (Some e))
  | None =>
  let! i := deref primaryIPConfig in
  let! configs := deref (IPConfigurations nic) in
  let! config := index configs (Z.of_nat i) in
  let newBackendPools := memberships config in
  let! foundPool := poolFound backendPoolID newBackendPools in
  if foundPool : bool
  then Done (w, [], hostResult None)
  else
    let '(omit, err) :=
      (if (useStandardLoadBalancer az && (Z.of_nat (List.length newBackendPools) >? 0))%bool
       then
         let newBackendPoolsIDs := omap pool_ID newBackendPools in
         let '(isSameLB, oldLBName, err) :=
           isBackendPoolOnSameLB backendPoolID newBackendPoolsIDs in
         match err with
         | Some e => (true, Some e)
         | None => (negb isSameLB, None)
         end
       else (false, None)) in
    if omit : bool
    then Done (w, [], hostResult err)
    else
      let newBackendPools := newBackendPools ++ [ {| pool_ID := Some backendPoolID |} ] in
      let nic := withBackendPools nic i newBackendPools in
      let! nicName := deref (nic_Name nic) in
      let '(w', err) := CreateOrUpdateInterface az w service nic in
      match err with
      | Some e => Done (w', [nic], hostResult (Some e))
      | None => Done (w', [nic], hostResult None)
      end
  end end.

End Standard.

(** ** Notions the properties are stated with *)

(** Some rule of [rules] holds the priority [p]. *)
Definition holdsPriority (rules : list SecurityRule) (p : Z) : Prop :=
  exists rule, rule ∈ rules /\ Priority rule = Some p.

(** [p] is the smallest value of the range of priorities that no rule
    of [rules] holds. *)
Definition smallestFree (rules : list SecurityRule) (p : Z) : Prop :=
  loadBalancerMinimumPriority <= p < loadBalancerMaximumPriority
  /\ ~ holdsPriority rules p
  /\ forall q, loadBalancerMinimumPriority <= q < p -> holdsPriority rules q.

(** A rule that holds the priority [p]. *)
Definition ruleAt (p : Z) : SecurityRule := {| Priority := Some p |}.

(** The byte [c] occurs in [s]. *)
Fixpoint hasByte (c : ascii) (s : string) : bool :=
  match s with
  | EmptyString => false
  | String d s' => (Ascii.eqb c d || hasByte c s')%bool
  end.

(** ** A cloud to run the functions on

    A small cloud, with machines and interfaces kept in memory, and
    simple readings of the functions defined elsewhere.  They serve to
    run the functions above on examples; the properties below are
    stated for every cloud. *)

Record World : Type := {
  machines : list VirtualMachine;
  interfaces : gmap string Interface
}.

Definition noMachine : VirtualMachine :=
  {| vm_Name := None; AvailabilitySet := None; NetworkInterfaces := None |}.

Definition machineNamed (name : string) (vm : VirtualMachine) : bool :=
  match vm_Name vm with
  | Some n => String.eqb n name
  | None => false
  end.

Definition exampleCloud (standard : bool) : Cloud World := {|
  SubscriptionID := "sub";
  ResourceGroup := "rg";
  PrimaryAvailabilitySetName := "as-a";
  ipv6DualStackEnabled := false;
  useStandardLoadBalancer := standard;
  GetLoadBalancerName := fun _ service => svc_Name service;
  GetVirtualMachineWithRetry := fun w name =>
    match List.find (machineNamed name) (machines w) with
    | Some vm => (vm, None)
    | None => (noMachine, Some (ClientError "instance not found"))
    end;
  GetNodeResourceGroup := fun _ => ("rg", None);
  InterfacesClient_Get := fun w _ name =>
    match interfaces w !! name with
    | Some nic => (nic, None)
    | None => (noInterface, Some (ClientError "interface not found"))
    end;
  CreateOrUpdateInterface := fun w _ nic =>
    match nic_Name nic with
    | Some name =>
        ({| machines := machines w; interfaces := <[name := nic]> (interfaces w) |}, None)
    | None => (w, Some (ClientError "interface without a name"))
    end;
  ListVirtualMachines := fun w _ => (machines w, None)
|}.

Definition modeAnnotation : string := "service.beta.kubernetes.io/azure-load-balancer-mode".
Definition subnetAnnotation : string :=
  "service.beta.kubernetes.io/azure-load-balancer-internal-subnet".

(** The mode is the annotation, ["__auto__"] or names between commas;
    the subnet is the annotation; a cluster IP with a colon counts as
    an IPv6 literal. *)
Definition examplePackage : Elsewhere := {|
  subnet := fun service => Annotations service !! subnetAnnotation;
  getServiceLoadBalancerMode := fun service =>
    match Annotations service !! modeAnnotation with
    | None => (false, false, [])
    | Some mode =>
        if String.eqb mode "__auto__" then (true, true, [])
        else (true, false, genSplit "," 0 mode)
    end;
  mapNodeNameToVMName := fun nodeName => nodeName;
  IsIPv6String := hasByte ":"
|}.

Definition serviceWith (name clusterIP : string) (annotations : gmap string string) : Service :=
  {| Namespace := "default"; svc_Name := name; ClusterIP := clusterIP;
     Annotations := annotations |}.

Definition nodeNamed (name : string) : Node :=
  {| node_Name := name; Labels := ∅ |}.

Definition masterNamed (name : string) : Node :=
  {| node_Name := name; Labels := {[ nodeLabelRole := "master" ]} |}.

Definition nicID (name : string) : string :=
  "/subscriptions/sub/resourceGroups/rg/providers/Microsoft.Network/networkInterfaces/"
  +:+ name.

(** A machine in an availability set, with one interface. *)
Definition machineIn (name availabilitySet nic : string) : VirtualMachine :=
  {| vm_Name := Some name;
     AvailabilitySet :=
       Some {| sub_ID := Some (availabilitySetIDTemplate "sub" "rg" availabilitySet) |};
     NetworkInterfaces := Some [ {| ref_ID := Some (nicID nic); ref_Primary := Some true |} ] |}.

Definition poolID (lb pool : string) : string :=
  "/subscriptions/sub/resourceGroups/rg/providers/Microsoft.Network/loadBalancers/"
  +:+ lb +:+ "/backendAddressPools/" +:+ pool.

Definition poolOf (id : string) : BackendAddressPool := {| pool_ID := Some id |}.

(** An interface with one IPv4 configuration and the given memberships. *)
Definition nicWith (name : string) (pools : option (list BackendAddressPool)) : Interface :=
  {| nic_Name := Some name;
     ProvisioningState := Some "Succeeded";
     IPConfigurations :=
       Some [ {| Primary := Some true;
                 PrivateIPAddress := Some "10.240.0.4";
                 PrivateIPAddressVersion := IPv4;
                 LoadBalancerBackendAddressPools := pools |} ] |}.

(** Three machines: [n1] and [n3] in the availability set [as-a], [n2]
    in [as-b].  The interface of [n1] is in no pool, the one of [n2] is
    in the pool [foo] of the load balancer [lb1]. *)
Definition exampleWorld : World :=
  {| machines := [ machineIn "n1" "as-a" "n1-nic";
                   machineIn "n2" "as-b" "n2-nic";
                   machineIn "n3" "as-a" "n3-nic" ];
     interfaces := {[ "n1-nic" := nicWith "n1-nic" None;
                      "n2-nic" := nicWith "n2-nic" (Some [poolOf (poolID "lb1" "foo")]) ]} |}.

Definition plainService : Service := serviceWith "web" "10.0.0.1" ∅.

Definition autoService : Service :=
  serviceWith "web" "10.0.0.1" {[ modeAnnotation := "__auto__" ]}.

Definition explicitService (names : string) : Service :=
  serviceWith "web" "10.0.0.1" {[ modeAnnotation := names ]}.

(** A service with a load balancer name of 32 bytes and a subnet of 40. *)
Definition subnetService : Service :=
  serviceWith "a0123456789abcdef0123456789abcde" "10.0.0.1"
    {[ subnetAnnotation := "subnet-0123456789-0123456789-0123456789x" ]}.

(** A service whose load balancer name alone has 80 bytes, with a subnet. *)
Definition longService : Service :=
  serviceWith
    "a0123456789abcdef0123456789abcdef0123456789abcdef0123456789abcdef0123456789abcde"
    "10.0.0.1" {[ subnetAnnotation := "subnet" ]}.

(** [exampleWorld] once the interface of [n1] has joined the pool
    [foo] of the load balancer [lb2]. *)
Definition joinedWorld : World :=
  {| machines := machines exampleWorld;
     interfaces :=
       <["n1-nic" := nicWith "n1-nic" (Some [poolOf (poolID "lb2" "foo")])]>
         (interfaces exampleWorld) |}.

(** ** More of the file

    The functions of [azure_standard.go] that the sections above do
    not need, with the parts of the Go library they call. *)

(** [strings.HasSuffix(s, suffix)] *)
Definition HasSuffix (s suffix : string) : bool :=
  (Nat.leb (String.length suffix) (String.length s)
   && String.eqb (drop_bytes (String.length s - String.length suffix) s) suffix)%bool.

(** [strings.TrimSuffix(s, suffix)] *)
Definition TrimSuffix (s suffix : string) : string :=
  if HasSuffix s suffix
  then String.substring 0 (String.length s - String.length suffix) s
  else s.

(** [strings.Replace(s, old, new, -1)] for an [old] of a single byte,
    as at both calls of the file. *)
Fixpoint ReplaceByte (old : ascii) (new : string) (s : string) : string :=
  match s with
  | EmptyString => EmptyString
  | String c s' =>
      if Ascii.eqb c old
      then new +:+ ReplaceByte old new s'
      else String c (ReplaceByte old new s')
  end.

Definition InternalLoadBalancerNameSuffix : string := "-internal".
Definition storageAccountNameMaxLength : Z := 24.
Definition frontendIPConfigNameMaxLength : Z := 80.

(** [fmt.Sprintf(frontendIPConfigIDTemplate, a, b, c, d)] *)
Definition frontendIPConfigIDTemplate (a b c d : string) : string :=
  "/subscriptions/" +:+ a +:+ "/resourceGroups/" +:+ b
  +:+ "/providers/Microsoft.Network/loadBalancers/" +:+ c
  +:+ "/frontendIPConfigurations/" +:+ d.


(** [fmt.Sprintf(loadBalancerProbeIDTemplate, a, b, c, d)] *)
Definition loadBalancerProbeIDTemplate (a b c d : string) : string :=
  "/subscriptions/" +:+ a +:+ "/resourceGroups/" +:+ b
  +:+ "/providers/Microsoft.Network/loadBalancers/" +:+ c
  +:+ "/probes/" +:+ d.





(** [v1.ServicePort], the fields the file reads. *)
Record ServicePort : Type := {
  port_Protocol : string;
  port_Port : Z
}.

(** [network.LoadBalancer] *)
Record LoadBalancer : Type := { lb_Name : option string }.

(** More of [*Cloud]: the settings the functions below read, and the
    primary set of the configured [VMSet]. *)
Record Settings : Type := {
  LoadBalancerName : string;
  NetworkResourceSubscriptionID : string;
  (** [az.Config.UsesNetworkResourceInDifferentTenant()] *)
  UsesNetworkResourceInDifferentTenant : bool;
  (** [az.VMSet.GetPrimaryVMSetName()] *)
  VMSet_GetPrimaryVMSetName : string
}.

Section More.

Context {U : Unicode} {W : Type} (az : Cloud W) (cfg : Settings) (pkg : Elsewhere).

(** [useSharedSecurityRule(service)], defined in another file. *)
Variable useSharedSecurityRule : Service -> bool.

Definition getNetworkResourceSubscriptionID : string :=
  if UsesNetworkResourceInDifferentTenant cfg
  then NetworkResourceSubscriptionID cfg
  else SubscriptionID az.

Definition getFrontendIPConfigID (lbName rgName fipConfigName : string) : string :=
  frontendIPConfigIDTemplate getNetworkResourceSubscriptionID rgName lbName fipConfigName.


Definition getLoadBalancerProbeID (lbName rgName lbRuleName : string) : string :=
  loadBalancerProbeIDTemplate getNetworkResourceSubscriptionID rgName lbName lbRuleName.

Definition mapLoadBalancerNameToVMSet (lbName clusterName : string) : string :=
  let vmSetName := TrimSuffix lbName InternalLoadBalancerNameSuffix in
  if EqualFold clusterName vmSetName
  then VMSet_GetPrimaryVMSetName cfg
  else vmSetName.

Definition getAzureLoadBalancerName (clusterName vmSetName : string) (isInternal : bool) : string :=
  let clusterName :=
    if negb (String.eqb (LoadBalancerName cfg) EmptyString)
    then LoadBalancerName cfg
    else clusterName in
  let lbNamePrefix :=
    if (EqualFold vmSetName (VMSet_GetPrimaryVMSetName cfg)
        || useStandardLoadBalancer az)%bool
    then clusterName
    else vmSetName in
  if isInternal
  then lbNamePrefix +:+ InternalLoadBalancerNameSuffix
  else lbNamePrefix.

Definition isInternalLoadBalancer (lb : LoadBalancer) : go bool :=
  let! name := deref (lb_Name lb) in
  Done (HasSuffix name InternalLoadBalancerNameSuffix).

Definition getSecurityRuleName (service : Service) (port : ServicePort)
    (sourceAddrPrefix : string) : string :=
  if useSharedSecurityRule service
  then
    let safePrefix := ReplaceByte "/" "_" sourceAddrPrefix in
    "shared-" +:+ port_Protocol port +:+ "-" +:+ itoa (port_Port port)
    +:+ "-" +:+ safePrefix
  else
    let safePrefix := ReplaceByte "/" "_" sourceAddrPrefix in
    let rulePrefix := getRulePrefix az service in
    rulePrefix +:+ "-" +:+ port_Protocol port +:+ "-" +:+ itoa (port_Port port)
    +:+ "-" +:+ safePrefix.

Definition getPublicIPName (clusterName : string) (service : Service) : string :=
  clusterName +:+ "-" +:+ GetLoadBalancerName az clusterName service.

Definition getFrontendIPConfigName (service : Service) : go string :=
  let baseName := GetLoadBalancerName az EmptyString service in
  let subnetName := subnet pkg service in
  match subnetName with
  | Some subnetName =>
      let ipcName := baseName +:+ "-" +:+ subnetName in
      if len ipcName >? frontendIPConfigNameMaxLength
      then slice_to ipcName frontendIPConfigNameMaxLength
      else Done ipcName
  | None => Done baseName
  end.


Definition GetPrimaryVMSetName : string := PrimaryAvailabilitySetName az.

Definition GetPrimaryInterface (w : W) (nodeName : string) : go (Interface * option error) :=
  getPrimaryInterfaceWithVMSet az w nodeName EmptyString.

(** The loop of [GetPrivateIPsByNodeName]. *)
Fixpoint privateIPsOf (ips : list string) (configs : list InterfaceIPConfiguration)
    : list string :=
  match configs with
  | [] => ips
  | ipConfig :: configs' =>
      match PrivateIPAddress ipConfig with
      | Some address => privateIPsOf (ips ++ [address]) configs'
      | None => privateIPsOf ips configs'
      end
  end.

Definition GetPrivateIPsByNodeName (w : W) (name : string) : go (list string * option error) :=
  let ips := [] in
  let! (nic, err) := GetPrimaryInterface w name in
  match err with
  | Some e => Done (ips, Some e)
  | None =>
      match IPConfigurations nic with
      | None =>
          let! nicName := deref (nic_Name nic) in
          Done (ips, Some (IPConfigurationsNil nicName))
      | Some configs => Done (privateIPsOf ips configs, None)
      end
  end.

(** [generateStorageAccountName]; [newUUID] is what [uuid.NewUUID()]
    gives at the call. *)
Definition generateStorageAccountName (newUUID accountNamePrefix : string) : go string :=
  let uniqueID := ReplaceByte "-" EmptyString newUUID in
  let accountName := ToLower (accountNamePrefix +:+ uniqueID) in
  if len accountName >? storageAccountNameMaxLength
  then slice_to accountName (storageAccountNameMaxLength - 1)
  else Done accountName.

End More.

(** ** Notions for the further properties *)




Definition exampleSettings : Settings :=
  {| LoadBalancerName := EmptyString;
     NetworkResourceSubscriptionID := "net-sub";
     UsesNetworkResourceInDifferentTenant := false;
     VMSet_GetPrimaryVMSetName := "as-a" |}.

(** An interface with two IP configurations: the first one IPv4 and
    not primary, the second one IPv6 and primary. *)
Definition dualNic : Interface :=
  {| nic_Name := Some "n4-nic";
     ProvisioningState := Some "Succeeded";
     IPConfigurations :=
       Some [ {| Primary := Some false;
                 PrivateIPAddress := Some "10.240.0.5";
                 PrivateIPAddressVersion := IPv4;
                 LoadBalancerBackendAddressPools := None |};
              {| Primary := Some true;
                 PrivateIPAddress := Some "fd00::5";
                 PrivateIPAddressVersion := IPv6;
                 LoadBalancerBackendAddressPools := None |} ] |}.

(** No service shares its security rules. *)
Definition neverShared (service : Service) : bool := false.

Definition tcp80 : ServicePort := {| port_Protocol := "TCP"; port_Port := 80 |}.

(** A machine with two interfaces, the second one primary. *)
Definition dualMachine : VirtualMachine :=
  {| vm_Name := Some "n4";
     AvailabilitySet := None;
     NetworkInterfaces :=
       Some [ {| ref_ID := Some (nicID "n4-nic-a"); ref_Primary := Some false |};
              {| ref_ID := Some (nicID "n4-nic-b"); ref_Primary := Some true |} ] |}.

(** * Properties *)

(** ** Strings *)

Lemma app_cons (c : ascii) (a b : string) : String c a +:+ b = String c (a +:+ b).
Proof. reflexivity. Qed.

Lemma app_empty_l (a : string) : EmptyString +:+ a = a.
Proof. reflexivity. Qed.

Lemma string_length_app (a b : string) :
  String.length (a +:+ b) = (String.length a + String.length b)%nat.
Proof.
  induction a as [|c a IH]; [reflexivity|].
  rewrite app_cons. simpl. now rewrite IH.
Qed.

Lemma len_app (a b : string) : len (a +:+ b) = len a + len b.
Proof. unfold len. rewrite string_length_app. lia. Qed.

Lemma len_nonneg (a : string) : 0 <= len a.
Proof. unfold len. lia. Qed.

Lemma app_assoc_string (a b c : string) : (a +:+ b) +:+ c = a +:+ (b +:+ c).
Proof.
  induction a as [|x a IH]; [reflexivity|].
  rewrite !app_cons. now rewrite IH.
Qed.

Lemma app_empty_r (a : string) : a +:+ EmptyString = a.
Proof.
  induction a as [|x a IH]; [reflexivity|].
  rewrite app_cons. now rewrite IH.
Qed.

Lemma app_neq_self (a b : string) : b <> EmptyString -> a +:+ b <> a.
Proof.
  intros Hb Heq. apply (f_equal String.length) in Heq.
  rewrite string_length_app in Heq. destruct b; [congruence | simpl in Heq; lia].
Qed.

(** A slice [s[:n]] within bounds is the first [n] bytes of [s]. *)
Lemma substring_split (s : string) (n : nat) :
  (n <= String.length s)%nat ->
  exists cut, s = String.substring 0 n s +:+ cut
              /\ String.length (String.substring 0 n s) = n
              /\ String.length cut = (String.length s - n)%nat.
Proof.
  revert n. induction s as [|c s IH]; intros n Hn; simpl in *.
  - assert (n = 0%nat) by lia. subst. exists EmptyString. simpl. auto.
  - destruct n as [|n].
    + exists (String c s). simpl. auto.
    + destruct (IH n) as (cut & Hs & Hlen & Hcut); [lia|].
      exists cut. simpl. rewrite app_cons, <- Hs, Hlen. auto.
Qed.

Lemma prefix_app (a b : string) : String.prefix a (a +:+ b) = true.
Proof.
  induction a as [|c a IH].
  - destruct b; reflexivity.
  - rewrite app_cons. simpl. destruct (ascii_dec c c); [assumption | congruence].
Qed.

Lemma prefix_byte (a c : ascii) (s : string) :
  String.prefix (String a EmptyString) (String c s) = Ascii.eqb a c.
Proof.
  simpl. destruct (ascii_dec a c) as [->|Hne].
  - rewrite Ascii.eqb_refl. destruct s; reflexivity.
  - destruct (Ascii.eqb_spec a c); [contradiction | reflexivity].
Qed.

Lemma prefix_inv (a s : string) :
  String.prefix a s = true -> exists rest, s = a +:+ rest.
Proof.
  revert s. induction a as [|c a IH]; intros s H.
  - exists s. reflexivity.
  - destruct s as [|d s]; simpl in H; [discriminate|].
    destruct (ascii_dec c d) as [->|]; [|discriminate].
    destruct (IH s H) as [rest ->]. exists rest. reflexivity.
Qed.

Lemma HasPrefix_iff `{U : Unicode} (s prefix : string) :
  HasPrefix s prefix = true <-> exists rest, s = prefix +:+ rest.
Proof.
  unfold HasPrefix. split.
  - apply prefix_inv.
  - intros [rest ->]. apply prefix_app.
Qed.

(** ** Names *)

Section Names.

Context {U : Unicode} {W : Type} (az : Cloud W) (pkg : Elsewhere).

Lemma ruleName_with_segment_len (service : Service) (protocol : string) (port : Z)
    (segment : string) :
  len (getRulePrefix az service +:+ "-" +:+ segment +:+ "-" +:+ protocol
       +:+ "-" +:+ itoa port)
  = len (baseRuleName az service protocol port) + len segment + 1.
Proof.
  unfold baseRuleName. rewrite !len_app. change (len "-") with 1. lia.
Qed.

(** What [getLoadBalancerRuleName] does for a service with a subnet,
    case by case on the length of the base name. *)
Lemma getLoadBalancerRuleName_cases (service : Service) (protocol : string)
    (port : Z) (sub : string) :
  subnet pkg service = Some sub ->
  let base := baseRuleName az service protocol port in
  (80 <= len base -> getLoadBalancerRuleName az pkg service protocol port = Panic OutOfRange)
  /\ (len base < 80 ->
      exists segment cut,
        sub = segment +:+ cut
        /\ len segment = Z.min (len sub) (79 - len base)
        /\ getLoadBalancerRuleName az pkg service protocol port
           = Done (getRulePrefix az service +:+ "-" +:+ segment +:+ "-"
                   +:+ protocol +:+ "-" +:+ itoa port)).
Proof.
  intros Hsub base. unfold getLoadBalancerRuleName. rewrite Hsub.
  fold (baseRuleName az service protocol port). fold base.
  unfold loadBalancerRuleNameMaxLength.
  pose proof (len_nonneg sub) as Hs. pose proof (len_nonneg base) as Hb.
  split; intros Hlen.
  - destruct (len base + len sub + 1 >? 80) eqn:Hgt; [|lia].
    unfold slice_to. destruct (80 - len base - 1 <? 0) eqn:Hneg; [reflexivity | lia].
  - destruct (len base + len sub + 1 >? 80) eqn:Hgt.
    + unfold slice_to.
      destruct (80 - len base - 1 <? 0) eqn:Hneg; [lia|].
      fold (len sub).
      destruct (len sub <? 80 - len base - 1) eqn:Hover; [lia|]. simpl.
      destruct (substring_split sub (Z.to_nat (80 - len base - 1)))
        as (cut & Hsplit & Hseg & _); [unfold len in *; lia|].
      exists (String.substring 0 (Z.to_nat (80 - len base - 1)) sub), cut.
      split; [exact Hsplit|]. split; [|reflexivity].
      unfold len at 1. rewrite Hseg. lia.
    + exists sub, EmptyString. rewrite app_empty_r. simpl.
      split; [reflexivity|]. split; [lia | reflexivity].
Qed.

(** C7.  A rule name that [getLoadBalancerRuleName] returns for a
    service with a subnet is [<prefix>-<segment>-<protocol>-<port>]
    where the segment is the subnet with some bytes cut from its tail;
    it is never longer than 80 bytes, and bytes are cut only to reach
    exactly 80.  The prefix, the protocol and the port are whole.  A
    name is returned whenever the name without the subnet is shorter
    than 80 bytes.  Without a subnet the name is
    [<prefix>-<protocol>-<port>]. *)
Theorem getLoadBalancerRuleName_budget (service : Service) (protocol : string) (port : Z) :
  let prefix := getRulePrefix az service in
  (subnet pkg service = None ->
   getLoadBalancerRuleName az pkg service protocol port
   = Done (prefix +:+ "-" +:+ protocol +:+ "-" +:+ itoa port))
  /\ (forall sub, subnet pkg service = Some sub ->
      (len (baseRuleName az service protocol port) < 80 ->
       exists name, getLoadBalancerRuleName az pkg service protocol port = Done name)
      /\ (forall name,
          getLoadBalancerRuleName az pkg service protocol port = Done name ->
          len name <= 80
          /\ exists segment cut,
               sub = segment +:+ cut
               /\ name = prefix +:+ "-" +:+ segment +:+ "-" +:+ protocol
                         +:+ "-" +:+ itoa port
               /\ (cut <> EmptyString -> len name = 80))).
Proof.
  intros prefix. split.
  - intros Hnone. unfold getLoadBalancerRuleName. rewrite Hnone. reflexivity.
  - intros sub Hsub.
    destruct (getLoadBalancerRuleName_cases service protocol port sub Hsub)
      as [Hpanic Hdone].
    split.
    + intros Hlt. destruct (Hdone Hlt) as (segment & cut & _ & _ & Heq). eauto.
    + intros name Hname.
      destruct (Z_lt_le_dec (len (baseRuleName az service protocol port)) 80) as [Hlt|Hge].
      * destruct (Hdone Hlt) as (segment & cut & Hsplit & Hseg & Heq).
        rewrite Heq in Hname. injection Hname as <-.
        rewrite ruleName_with_segment_len.
        split; [lia|]. exists segment, cut. split; [exact Hsplit|].
        split; [reflexivity|]. intros Hcut.
        assert (0 < len cut) by (destruct cut; [congruence | unfold len; simpl; lia]).
        assert (len sub = len segment + len cut) by (rewrite Hsplit at 1; apply len_app).
        lia.
      * rewrite (Hpanic Hge) in Hname. discriminate.
Qed.

(** C10.  For a service with a subnet, [getLoadBalancerRuleName]
    returns exactly when the name without the subnet is shorter than
    80 bytes.  From 80 bytes on, the bound [80 - len(ruleName) - 1] of
    the slice is negative and the slice is out of range. *)
Theorem getLoadBalancerRuleName_partial (service : Service) (protocol : string)
    (port : Z) (sub : string) :
  subnet pkg service = Some sub ->
  let ruleName := baseRuleName az service protocol port in
  (len ruleName < 80 <->
   exists name, getLoadBalancerRuleName az pkg service protocol port = Done name)
  /\ (80 <= len ruleName ->
      loadBalancerRuleNameMaxLength - len ruleName - 1 < 0
      /\ slice_to sub (loadBalancerRuleNameMaxLength - len ruleName - 1) = Panic OutOfRange
      /\ getLoadBalancerRuleName az pkg service protocol port = Panic OutOfRange).
Proof.
  intros Hsub ruleName.
  destruct (getLoadBalancerRuleName_cases service protocol port sub Hsub)
    as [Hpanic Hdone].
  fold ruleName in Hpanic, Hdone. split.
  - split.
    + intros Hlt. destruct (Hdone Hlt) as (segment & cut & _ & _ & Heq). eauto.
    + intros [name Hname].
      destruct (Z_lt_le_dec (len ruleName) 80) as [Hlt|Hge]; [exact Hlt|].
      rewrite (Hpanic Hge) in Hname. discriminate.
  - intros Hge. unfold loadBalancerRuleNameMaxLength.
    split; [lia|]. split; [|exact (Hpanic Hge)].
    unfold slice_to. destruct (80 - len ruleName - 1 <? 0) eqn:Hneg; [reflexivity | lia].
Qed.

(** C8.  [getBackendPoolName] returns the cluster name exactly when
    [IsIPv6String] rejects the cluster IP of the service, and
    [<clusterName>-IPv6] exactly when it accepts it.  So cluster
    ["foo"] gives ["foo"] for a service whose cluster IP is not an IPv6
    literal, and ["foo-IPv6"] for the cluster IP ["2001:db8::1"], an
    IPv6 literal. *)
Theorem getBackendPoolName_by_family (clusterName : string) (service : Service) :
  (IsIPv6String pkg (ClusterIP service) = false
   <-> getBackendPoolName pkg clusterName service = clusterName)
  /\ (IsIPv6String pkg (ClusterIP service) = true
      <-> getBackendPoolName pkg clusterName service = clusterName +:+ "-IPv6")
  /\ (IsIPv6String pkg (ClusterIP service) = false ->
      getBackendPoolName pkg "foo" service = "foo")
  /\ (ClusterIP service = "2001:db8::1" ->
      IsIPv6String pkg "2001:db8::1" = true ->
      getBackendPoolName pkg "foo" service = "foo-IPv6").
Proof.
  unfold getBackendPoolName.
  assert (Hne : clusterName +:+ "-IPv6" <> clusterName)
    by (apply app_neq_self; discriminate).
  repeat split.
  - intros ->. reflexivity.
  - destruct (IsIPv6String pkg (ClusterIP service)); [intros H; congruence | reflexivity].
  - intros ->. reflexivity.
  - destruct (IsIPv6String pkg (ClusterIP service)); [reflexivity | intros H; congruence].
  - intros ->. reflexivity.
  - intros -> ->. reflexivity.
Qed.

End Names.

(** ** The priority allocator *)

Section Priorities.

Lemma add32_small (a b : Z) :
  - 2 ^ 31 <= a + b < 2 ^ 31 -> add32 a b = a + b.
Proof. intros H. unfold add32. rewrite Z.mod_small; lia. Qed.

Lemma priorityTaken_spec (rules : list SecurityRule) (p : Z) :
  Forall (fun rule => Priority rule <> None) rules ->
  (priorityTaken p rules = Done true /\ holdsPriority rules p)
  \/ (priorityTaken p rules = Done false /\ ~ holdsPriority rules p).
Proof.
  induction 1 as [|rule rules Hrule _ IH]; simpl.
  - right. split; [reflexivity|]. intros (rule & Hin & _). inversion Hin.
  - destruct (Priority rule) as [q|] eqn:Hq; [|congruence]. simpl.
    destruct (q =? p) eqn:Heq.
    + left. split; [reflexivity|]. exists rule. split; [left|].
      rewrite Hq. f_equal. lia.
    + destruct IH as [[-> Hholds] | [-> Hfree]].
      * left. split; [reflexivity|]. destruct Hholds as (r & Hin & Hr).
        exists r. split; [right; exact Hin | exact Hr].
      * right. split; [reflexivity|]. intros (r & Hin & Hr).
        inversion Hin; subst.
        -- rewrite Hq in Hr. injection Hr as ->. lia.
        -- apply Hfree. exists r. auto.
Qed.

Lemma nextPriorityFrom_unfold (turns : nat) (smallest : Z) (rules : list SecurityRule) :
  nextPriorityFrom (S turns) smallest rules =
  if smallest <? loadBalancerMaximumPriority
  then bind (priorityTaken smallest rules) (fun taken =>
         if taken : bool
         then nextPriorityFrom turns (add32 smallest 1) rules
         else Done (smallest, None))
  else Done (-1, Some PriorityExhausted).
Proof. reflexivity. Qed.

(** The loop from [smallest] on, when the turns left reach the
    maximum: it stops at the first free value, or runs the range out. *)
Lemma nextPriorityFrom_spec (rules : list SecurityRule) :
  Forall (fun rule => Priority rule <> None) rules ->
  forall (turns : nat) (smallest : Z),
  0 <= smallest <= loadBalancerMaximumPriority ->
  loadBalancerMaximumPriority - smallest <= Z.of_nat turns ->
  (exists p, nextPriorityFrom turns smallest rules = Done (p, None)
             /\ smallest <= p < loadBalancerMaximumPriority
             /\ ~ holdsPriority rules p
             /\ forall q, smallest <= q < p -> holdsPriority rules q)
  \/ (nextPriorityFrom turns smallest rules = Done (-1, Some PriorityExhausted)
      /\ forall q, smallest <= q < loadBalancerMaximumPriority -> holdsPriority rules q).
Proof.
  intros Hrules. unfold loadBalancerMaximumPriority.
  induction turns as [|turns IH]; intros smallest Hrange Hturns.
  - right. assert (smallest = 4096) as -> by lia. split; [reflexivity|]. lia.
  - rewrite nextPriorityFrom_unfold. unfold loadBalancerMaximumPriority.
    destruct (smallest <? 4096) eqn:Hlt.
    + destruct (priorityTaken_spec rules smallest Hrules) as [[-> Hholds] | [-> Hfree]]; simpl.
      * rewrite add32_small by lia.
        destruct (IH (smallest + 1)) as [(p & Heq & Hp & Hfree & Hbelow) | [Heq Hall]];
          [lia | lia | |].
        -- left. exists p. split; [exact Heq|]. split; [lia|]. split; [exact Hfree|].
           intros q Hq. destruct (Z.eq_dec q smallest) as [->|]; [exact Hholds|].
           apply Hbelow. lia.
        -- right. split; [exact Heq|].
           intros q Hq. destruct (Z.eq_dec q smallest) as [->|]; [exact Hholds|].
           apply Hall. lia.
      * left. exists smallest. split; [reflexivity|]. split; [lia|].
        split; [exact Hfree|]. lia.
    + right. split; [reflexivity|]. lia.
Qed.

(** C3.  Over rules that each carry a priority,
    [getNextAvailablePriority] returns [p] exactly when [p] is the
    smallest value of [500, 4096) that no rule holds, and fails with
    [PriorityExhausted] exactly when every value of [500, 4096) is held.
    Rules holding 500, 501 and 502 give 503. *)
Theorem getNextAvailablePriority_smallest_free (rules : list SecurityRule) :
  Forall (fun rule => Priority rule <> None) rules ->
  (forall p, getNextAvailablePriority rules = Done (p, None) <-> smallestFree rules p)
  /\ (getNextAvailablePriority rules = Done (-1, Some PriorityExhausted)
      <-> forall q, 500 <= q < 4096 -> holdsPriority rules q)
  /\ getNextAvailablePriority [ruleAt 500; ruleAt 501; ruleAt 502] = Done (503, None).
Proof.
  intros Hrules. unfold getNextAvailablePriority, smallestFree.
  unfold loadBalancerMinimumPriority.
  pose proof (nextPriorityFrom_spec rules Hrules
                (Z.to_nat (loadBalancerMaximumPriority - 500)) 500) as Hspec.
  unfold loadBalancerMaximumPriority in *.
  destruct Hspec as [(p0 & Heq & Hp0 & Hfree0 & Hbelow0) | [Heq Hall]]; [lia | lia | |].
  - rewrite Heq. split; [|split].
    + intros p. split.
      * intros [= <-]. auto.
      * intros (Hp & Hfree & Hbelow). f_equal. f_equal.
        destruct (Z.lt_trichotomy p p0) as [Hlt | [-> | Hgt]]; [|reflexivity|].
        -- exfalso. apply Hfree, Hbelow0. lia.
        -- exfalso. apply Hfree0, Hbelow. lia.
    + split; [discriminate|]. intros Hall. exfalso. apply Hfree0, Hall. lia.
    + vm_compute. reflexivity.
  - rewrite Heq. split; [|split].
    + intros p. split; [discriminate|].
      intros (Hp & Hfree & _). exfalso. apply Hfree, Hall. lia.
    + split; [intros _; exact Hall | reflexivity].
    + vm_compute. reflexivity.
Qed.

End Priorities.

(** ** Identifiers *)

Section Identifiers.

Context {U : Unicode}.

Lemma index_last {A : Type} (l : list A) :
  index l (Z.of_nat (List.length l) - 1)
  = match last l with
    | Some x => Done x
    | None => Panic OutOfRange
    end.
Proof.
  unfold index. destruct l as [|x l]; [reflexivity|].
  rewrite last_lookup. cbn [List.length Nat.pred].
  destruct (Z.ltb_spec (Z.of_nat (S (List.length l)) - 1) 0) as [Hneg|_]; [lia|].
  replace (Z.to_nat (Z.of_nat (S (List.length l)) - 1)) with (List.length l) by lia.
  reflexivity.
Qed.

(** [getLastSegment] in terms of the last part of the split. *)
Lemma getLastSegment_last (ID separator : string) :
  getLastSegment ID separator
  = match last (Split ID separator) with
    | Some EmptyString => Done (EmptyString, Some MalformedIdentifier)
    | Some name => Done (name, None)
    | None => Panic OutOfRange
    end.
Proof.
  unfold getLastSegment. rewrite index_last.
  destruct (last (Split ID separator)) as [[|c name]|]; reflexivity.
Qed.

Lemma genSplit_cons (sep : string) (skip : nat) (c : ascii) (s : string) :
  genSplit sep skip (String c s)
  = match skip with
    | S k => genSplit sep k s
    | O =>
        if String.prefix sep (String c s)
        then EmptyString :: genSplit sep (String.length sep - 1) s
        else match genSplit sep 0 s with
             | piece :: rest => String c piece :: rest
             | [] => [String c EmptyString]
             end
    end.
Proof. reflexivity. Qed.

Lemma genSplit_nonempty (sep : string) (skip : nat) (s : string) :
  genSplit sep skip s <> [].
Proof.
  revert skip. induction s as [|c s IH]; intros skip; [discriminate|].
  rewrite genSplit_cons. destruct skip; [|apply IH].
  destruct (String.prefix sep (String c s)); [discriminate|].
  destruct (genSplit sep 0 s); discriminate.
Qed.

Lemma genSplit_slash_cons (c : ascii) (s : string) :
  genSplit "/" 0 (String c s)
  = if Ascii.eqb "/" c
    then EmptyString :: genSplit "/" 0 s
    else match genSplit "/" 0 s with
         | piece :: rest => String c piece :: rest
         | [] => [String c EmptyString]
         end.
Proof.
  rewrite genSplit_cons, prefix_byte. reflexivity.
Qed.

(** A text without a slash is a single part. *)
Lemma genSplit_slash_none (s : string) :
  hasByte "/" s = false -> genSplit "/" 0 s = [s].
Proof.
  induction s as [|c s IH]; intros H; [reflexivity|].
  rewrite genSplit_slash_cons. cbn [hasByte] in H.
  destruct (Ascii.eqb "/" c); [discriminate|].
  rewrite IH by exact H. reflexivity.
Qed.

(** The parts of [a/b] end with the parts of [b]. *)
Lemma genSplit_slash_app (a b : string) :
  exists init, init <> []
    /\ genSplit "/" 0 (a +:+ String "/" b) = init ++ genSplit "/" 0 b.
Proof.
  induction a as [|c a IH].
  - exists [EmptyString]. split; [discriminate|].
    rewrite app_empty_l, genSplit_slash_cons. reflexivity.
  - destruct IH as (init & Hinit & Heq).
    rewrite app_cons, genSplit_slash_cons, Heq.
    destruct (Ascii.eqb "/" c).
    + exists (EmptyString :: init). split; [discriminate | reflexivity].
    + destruct init as [|piece init]; [contradiction|].
      exists (String c piece :: init). split; [discriminate | reflexivity].
Qed.

Lemma last_segment_slash (a name : string) :
  hasByte "/" name = false ->
  last (Split (a +:+ String "/" name) "/") = Some name.
Proof.
  intros Hname. unfold Split.
  destruct (genSplit_slash_app a name) as (init & _ & ->).
  rewrite genSplit_slash_none by exact Hname.
  apply last_snoc.
Qed.

(** C6.  For a machine name that is not empty and holds no slash, the
    last segment of the identifier that [getStandardMachineID] builds
    is the name, whatever the subscription and the resource group
    (which is lower-cased inside the identifier).  [getLastSegment]
    fails with an error exactly when the last part of the split is
    empty, and returns that part otherwise. *)
Theorem getLastSegment_getStandardMachineID :
  (forall subscriptionID resourceGroup name : string,
     name <> EmptyString ->
     hasByte "/" name = false ->
     getLastSegment (getStandardMachineID subscriptionID resourceGroup name) "/"
     = Done (name, None))
  /\ (forall ID separator : string,
      ((exists name e, getLastSegment ID separator = Done (name, Some e))
       <-> last (Split ID separator) = Some EmptyString)
      /\ (forall name, name <> EmptyString ->
           last (Split ID separator) = Some name ->
           getLastSegment ID separator = Done (name, None))).
Proof.
  split.
  - intros subscriptionID resourceGroup name Hne Hslash.
    rewrite getLastSegment_last.
    unfold getStandardMachineID, machineIDTemplate.
    change "/providers/Microsoft.Compute/virtualMachines/"
      with ("/providers/Microsoft.Compute/virtualMachines" +:+ "/").
    rewrite <- !app_assoc_string.
    rewrite (app_assoc_string _ "/" name).
    change ("/" +:+ name) with (String "/" name).
    rewrite last_segment_slash by exact Hslash.
    destruct name; [contradiction | reflexivity].
  - intros ID separator. rewrite getLastSegment_last. split.
    + split.
      * intros (name & e & H).
        destruct (last (Split ID separator)) as [[|c part]|]; [reflexivity | discriminate..].
      * intros ->. eauto.
    + intros name Hne ->. destruct name; [contradiction | reflexivity].
Qed.

End Identifiers.

(** ** Ownership of rules and of frontend IP configurations *)

Section Ownership.

Context {U : Unicode} {W : Type} (az : Cloud W).

Lemma forall_bytes (P : ascii -> bool) :
  forallb P all_bytes = true -> forall a, P a = true.
Proof.
  intros H a. rewrite forallb_forall in H. apply H.
  rewrite <- (ascii_nat_embedding a). unfold all_bytes.
  apply in_map, in_seq. pose proof (nat_ascii_bounded a). lia.
Qed.

Lemma fold_byte_eq_upper (a b : ascii) :
  fold_byte_eq a b = Ascii.eqb (upper_byte a) (upper_byte b).
Proof.
  assert (Hall : forallb (fun a =>
            forallb (fun b => Bool.eqb (fold_byte_eq a b)
                                (Ascii.eqb (upper_byte a) (upper_byte b)))
              all_bytes) all_bytes = true)
    by (vm_compute; reflexivity).
  pose proof (forall_bytes _ Hall a) as Ha. cbv beta in Ha.
  pose proof (forall_bytes _ Ha b) as Hb. cbv beta in Hb.
  apply Bool.eqb_prop, Hb.
Qed.

Lemma fold_eq_upper (s t : string) :
  fold_eq s t = true <-> map_bytes upper_byte s = map_bytes upper_byte t.
Proof.
  revert t. induction s as [|a s IH]; intros [|b t]; simpl; try (split; congruence).
  rewrite Bool.andb_true_iff, fold_byte_eq_upper, IH, Ascii.eqb_eq.
  split; [intros [-> ->]; reflexivity | intros [= -> ->]; auto].
Qed.

Lemma fold_eq_refl (s : string) : fold_eq s s = true.
Proof. apply fold_eq_upper. reflexivity. Qed.

Lemma EqualFold_refl (s : string) : EqualFold s s = true.
Proof.
  unfold EqualFold. destruct (isASCII s); simpl;
    [apply fold_eq_refl | apply unicode_EqualFold_refl].
Qed.

Lemma isASCII_app (a b : string) :
  isASCII (a +:+ b) = (isASCII a && isASCII b)%bool.
Proof.
  induction a as [|c a IH]; [reflexivity|].
  rewrite app_cons. simpl. rewrite IH. apply Bool.andb_assoc.
Qed.

Lemma map_bytes_app (f : ascii -> ascii) (a b : string) :
  map_bytes f (a +:+ b) = map_bytes f a +:+ map_bytes f b.
Proof.
  induction a as [|c a IH]; [reflexivity|].
  rewrite app_cons. simpl. rewrite IH. reflexivity.
Qed.

Lemma map_bytes_length (f : ascii -> ascii) (a : string) :
  String.length (map_bytes f a) = String.length a.
Proof. induction a as [|c a IH]; simpl; congruence. Qed.

(** A text whose image starts with the image of [p] starts with a
    text of the same image as [p]. *)
Lemma map_bytes_prefix (f : ascii -> ascii) (s p rest : string) :
  map_bytes f s = map_bytes f p +:+ rest ->
  exists head tail, s = head +:+ tail /\ map_bytes f head = map_bytes f p.
Proof.
  revert s. induction p as [|c p IH]; intros s H.
  - exists EmptyString, s. auto.
  - destruct s as [|d s]; [discriminate|].
    simpl in H. rewrite app_cons in H. injection H as Hc Hs.
    destruct (IH s Hs) as (head & tail & -> & Hhead).
    exists (String d head), tail. simpl. rewrite Hc, Hhead. auto.
Qed.

(** On ASCII names, [serviceOwnsRule] compares the beginning of the
    rule with the prefix up to the case of letters. *)
Lemma serviceOwnsRule_ascii (service : Service) (rule : string) :
  isASCII rule = true ->
  isASCII (getRulePrefix az service) = true ->
  serviceOwnsRule az service rule = true
  <-> exists head rest,
        rule = head +:+ rest /\ EqualFold head (getRulePrefix az service) = true.
Proof.
  intros Hrule Hprefix. unfold serviceOwnsRule, ToUpper.
  rewrite Hrule, Hprefix, HasPrefix_iff. split.
  - intros [rest Heq].
    destruct (map_bytes_prefix _ _ _ _ Heq) as (head & tail & -> & Hhead).
    exists head, tail. split; [reflexivity|].
    rewrite isASCII_app in Hrule. apply Bool.andb_true_iff in Hrule as [Hh _].
    unfold EqualFold. rewrite Hh, Hprefix. simpl. apply fold_eq_upper, Hhead.
  - intros (head & rest & -> & Hfold).
    rewrite isASCII_app in Hrule. apply Bool.andb_true_iff in Hrule as [Hh _].
    unfold EqualFold in Hfold. rewrite Hh, Hprefix in Hfold. simpl in Hfold.
    apply fold_eq_upper in Hfold.
    exists (map_bytes upper_byte rest). rewrite map_bytes_app, Hfold. reflexivity.
Qed.

(** C9.  [serviceOwnsRule] holds exactly when the rule name in
    capitals starts with the rule prefix of the service in capitals;
    on ASCII names that is: the rule name starts with a text equal to
    the prefix up to case.  [serviceOwnsFrontendIP] holds exactly when
    the name of the frontend IP configuration starts with the base name
    of the service, byte for byte.  The prefix and the base name are
    the same name, so the two checks differ in case sensitivity only:
    an ASCII name that passes the second passes the first. *)
Theorem ownership_case_sensitivity (service : Service) (rule name : string) :
  let prefix := getRulePrefix az service in
  let fip := {| fip_Name := Some name |} in
  prefix = GetLoadBalancerName az EmptyString service
  /\ (serviceOwnsRule az service rule = true
      <-> exists rest, ToUpper rule = ToUpper prefix +:+ rest)
  /\ (isASCII rule = true -> isASCII prefix = true ->
      (serviceOwnsRule az service rule = true
       <-> exists head rest, rule = head +:+ rest /\ EqualFold head prefix = true))
  /\ (exists owns, serviceOwnsFrontendIP az fip service = Done owns
                   /\ (owns = true <-> exists rest, name = prefix +:+ rest))
  /\ (isASCII name = true ->
      serviceOwnsFrontendIP az fip service = Done true ->
      serviceOwnsRule az service name = true).
Proof.
  intros prefix fip. split; [reflexivity|]. split; [|split; [|split]].
  - unfold serviceOwnsRule. apply HasPrefix_iff.
  - intros Hrule Hprefix. apply serviceOwnsRule_ascii; assumption.
  - unfold serviceOwnsFrontendIP. simpl. eexists. split; [reflexivity|].
    apply HasPrefix_iff.
  - unfold serviceOwnsFrontendIP. simpl. intros Hname [= Hprefix].
    apply HasPrefix_iff in Hprefix as [rest Hrest].
    fold (getRulePrefix az service) in Hrest. fold prefix in Hrest.
    assert (Hparts : isASCII prefix = true /\ isASCII rest = true).
    { rewrite Hrest, isASCII_app in Hname. apply Bool.andb_true_iff, Hname. }
    destruct Hparts as [Hp _].
    apply serviceOwnsRule_ascii; [exact Hname | exact Hp |].
    exists prefix, rest. split; [exact Hrest | apply EqualFold_refl].
Qed.

End Ownership.

(** ** The backend-pool reconciler *)

Section Reconciler.

Context {U : Unicode} {W : Type} (az : Cloud W) (pkg : Elsewhere).

Lemma poolFound_total (backendPoolID : string) (pools : list BackendAddressPool) :
  Forall (fun pool => pool_ID pool <> None) pools ->
  exists found, poolFound backendPoolID pools = Done found.
Proof.
  induction 1 as [|pool pools Hid _ IH]; simpl; [eauto|].
  destruct (pool_ID pool) as [id|]; [|congruence]. simpl.
  destruct (EqualFold backendPoolID id); eauto.
Qed.

(** The scan stops at a pool equal to the one asked for, once it has
    passed the memberships ahead of it. *)
Lemma poolFound_split (backendPoolID id : string)
    (before after : list BackendAddressPool) (pool : BackendAddressPool) :
  Forall (fun pool => pool_ID pool <> None) before ->
  pool_ID pool = Some id ->
  EqualFold backendPoolID id = true ->
  poolFound backendPoolID (before ++ pool :: after) = Done true.
Proof.
  intros Hbefore Hid Hfold.
  induction Hbefore as [|first before Hfirst _ IH]; simpl.
  - rewrite Hid. simpl. rewrite Hfold. reflexivity.
  - destruct (pool_ID first) as [id'|]; [|congruence]. simpl.
    destruct (EqualFold backendPoolID id'); [reflexivity | exact IH].
Qed.

(** Once the scan has passed every membership without a match, the
    pool appended at the end is found by the next scan. *)
Lemma poolFound_appended (backendPoolID : string) (pools : list BackendAddressPool) :
  poolFound backendPoolID pools = Done false ->
  poolFound backendPoolID (pools ++ [ {| pool_ID := Some backendPoolID |} ]) = Done true.
Proof.
  induction pools as [|pool pools IH]; simpl.
  - intros _. rewrite EqualFold_refl. reflexivity.
  - destruct (pool_ID pool) as [id|]; simpl; [|discriminate].
    destruct (EqualFold backendPoolID id); [discriminate | exact IH].
Qed.

(** The choice of the IP configuration does not look at memberships. *)
Lemma primaryIPConfigFrom_alter (f : InterfaceIPConfiguration -> InterfaceIPConfiguration)
    (i k : nat) (configs : list InterfaceIPConfiguration) :
  (forall config, Primary (f config) = Primary config) ->
  primaryIPConfigFrom k (alter f i configs) = primaryIPConfigFrom k configs.
Proof.
  intros Hf. revert i k. induction configs as [|config configs IH]; intros i k.
  - reflexivity.
  - destruct i as [|i]; simpl.
    + rewrite Hf. reflexivity.
    + destruct (Primary config) as [[]|]; simpl; [reflexivity | apply IH | reflexivity].
Qed.

Lemma ipConfigOfVersionFrom_alter (f : InterfaceIPConfiguration -> InterfaceIPConfiguration)
    (ipVersion : string) (i k : nat) (configs : list InterfaceIPConfiguration) :
  (forall config, PrivateIPAddress (f config) = PrivateIPAddress config) ->
  (forall config, PrivateIPAddressVersion (f config) = PrivateIPAddressVersion config) ->
  ipConfigOfVersionFrom ipVersion k (alter f i configs)
  = ipConfigOfVersionFrom ipVersion k configs.
Proof.
  intros Ha Hv. revert i k. induction configs as [|config configs IH]; intros i k.
  - reflexivity.
  - destruct i as [|i].
    + change (alter f 0%nat (config :: configs)) with (f config :: configs).
      cbn [ipConfigOfVersionFrom]. rewrite Ha, Hv. reflexivity.
    + change (alter f (S i) (config :: configs)) with (config :: alter f i configs).
      cbn [ipConfigOfVersionFrom]. rewrite IH. reflexivity.
Qed.

Lemma primaryIPConfigOf_withBackendPools (service : Service) (nic : Interface)
    (i : nat) (pools : list BackendAddressPool) :
  primaryIPConfigOf az pkg service (withBackendPools nic i pools)
  = primaryIPConfigOf az pkg service nic.
Proof.
  unfold primaryIPConfigOf, getPrimaryIPConfig, getIPConfigByIPFamily, withBackendPools.
  simpl. destruct (IPConfigurations nic) as [configs|]; simpl; [|reflexivity].
  rewrite length_alter, primaryIPConfigFrom_alter by reflexivity.
  rewrite ipConfigOfVersionFrom_alter by reflexivity.
  reflexivity.
Qed.

(** The index that [primaryIPConfigOf] gives is the place of a
    configuration of the interface. *)
Lemma primaryIPConfigFrom_bound (k : nat) (configs : list InterfaceIPConfiguration) (i : nat) :
  primaryIPConfigFrom k configs = Done (Some i) ->
  (k <= i < k + List.length configs)%nat.
Proof.
  revert k. induction configs as [|config configs IH]; intros k; simpl; [discriminate|].
  destruct (Primary config) as [[]|]; simpl; [| |discriminate].
  - intros [= <-]. lia.
  - intros H. apply IH in H. lia.
Qed.

Lemma ipConfigOfVersionFrom_bound (ipVersion : string) (k : nat)
    (configs : list InterfaceIPConfiguration) (i : nat) :
  ipConfigOfVersionFrom ipVersion k configs = Some i ->
  (k <= i < k + List.length configs)%nat.
Proof.
  revert k. induction configs as [|config configs IH]; intros k; simpl; [discriminate|].
  destruct (notNil (PrivateIPAddress config)
            && String.eqb (PrivateIPAddressVersion config) ipVersion)%bool.
  - intros [= <-]. lia.
  - intros H. apply IH in H. lia.
Qed.

Lemma primaryIPConfigOf_config (service : Service) (nic : Interface) (i : nat) :
  primaryIPConfigOf az pkg service nic = Done (Some i, None) ->
  exists configs config, IPConfigurations nic = Some configs /\ configs !! i = Some config.
Proof.
  unfold primaryIPConfigOf, getPrimaryIPConfig, getIPConfigByIPFamily.
  destruct (IPConfigurations nic) as [configs|].
  - intros H. exists configs.
    assert (i < List.length configs)%nat as Hi.
    { destruct (negb (ipv6DualStackEnabled az) && negb (IsIPv6String pkg (ClusterIP service)))%bool.
      - destruct (Z.eqb_spec (Z.of_nat (List.length configs)) 1) as [Hone|_].
        + injection H as <-. lia.
        + destruct (primaryIPConfigFrom 0 configs) as [[k|]|] eqn:Hfrom; simpl in H.
          * injection H as <-. apply primaryIPConfigFrom_bound in Hfrom. lia.
          * destruct (nic_Name nic); discriminate.
          * discriminate.
      - destruct (ipConfigOfVersionFrom _ 0 configs) as [k|] eqn:Hfrom.
        + injection H as <-. apply ipConfigOfVersionFrom_bound in Hfrom. lia.
        + destruct (nic_Name nic); discriminate. }
    destruct (lookup_lt_is_Some_2 configs i Hi) as [config Hconfig]. eauto.
  - destruct (negb (ipv6DualStackEnabled az) && negb (IsIPv6String pkg (ClusterIP service)))%bool;
      destruct (nic_Name nic); discriminate.
Qed.

Lemma index_lookup {A : Type} (l : list A) (i : nat) (x : A) :
  l !! i = Some x -> index l (Z.of_nat i) = Done x.
Proof.
  intros H. unfold index.
  destruct (Z.ltb_spec (Z.of_nat i) 0) as [Hneg|_]; [lia|].
  rewrite Nat2Z.id, H. reflexivity.
Qed.

(** A call that reaches the scan and finds the pool does nothing. *)
Lemma EnsureHostInPool_found (w : W) (service : Service)
    (nodeName backendPoolID vmSetName : string) (isInternal : bool)
    (nic : Interface) (i : nat) (configs : list InterfaceIPConfiguration)
    (config : InterfaceIPConfiguration) :
  getPrimaryInterfaceWithVMSet az w (mapNodeNameToVMName pkg nodeName) vmSetName
  = Done (nic, None) ->
  nicFailed nic = false ->
  primaryIPConfigOf az pkg service nic = Done (Some i, None) ->
  IPConfigurations nic = Some configs ->
  configs !! i = Some config ->
  poolFound backendPoolID (memberships config) = Done true ->
  EnsureHostInPool az pkg w service nodeName backendPoolID vmSetName isInternal
  = Done (w, [], hostResult None).
Proof.
  intros Hget Hfailed Hchoice Hconfigs Hconfig Hfound.
  unfold EnsureHostInPool. rewrite Hget. simpl. rewrite Hfailed, Hchoice. simpl.
  rewrite Hconfigs. simpl. rewrite (index_lookup _ _ _ Hconfig). simpl.
  rewrite Hfound. reflexivity.
Qed.

Lemma index_inv {A : Type} (l : list A) (i : nat) (x : A) :
  index l (Z.of_nat i) = Done x -> l !! i = Some x.
Proof.
  unfold index. destruct (Z.ltb_spec (Z.of_nat i) 0) as [Hneg|_]; [discriminate|].
  rewrite Nat2Z.id. destruct (l !! i); [intros [= ->]; reflexivity | discriminate].
Qed.

(** C1.  A call of [EnsureHostInPool] that reaches the memberships of
    the primary IP configuration, with the pool asked for among them
    up to case and an identifier on each membership ahead of it,
    issues no update, leaves the cloud as it is and returns no error.
    Hence a second call with the same pool does nothing: after a call
    that returned no error, with the cloud handing back the interface
    as the call wrote it, the same call issues no update and returns no
    error. *)
Theorem EnsureHostInPool_idempotent (service : Service)
    (nodeName backendPoolID vmSetName : string) (isInternal : bool) :
  let vmName := mapNodeNameToVMName pkg nodeName in
  (forall (w : W) (nic : Interface) (i : nat)
          (configs : list InterfaceIPConfiguration) (config : InterfaceIPConfiguration),
     getPrimaryInterfaceWithVMSet az w vmName vmSetName = Done (nic, None) ->
     nicFailed nic = false ->
     primaryIPConfigOf az pkg service nic = Done (Some i, None) ->
     IPConfigurations nic = Some configs ->
     configs !! i = Some config ->
     (exists before pool after id,
        memberships config = before ++ pool :: after
        /\ Forall (fun pool => pool_ID pool <> None) before
        /\ pool_ID pool = Some id
        /\ EqualFold backendPoolID id = true) ->
     EnsureHostInPool az pkg w service nodeName backendPoolID vmSetName isInternal
     = Done (w, [], hostResult None))
  /\ (forall (w w' : W) (updates : list Interface),
      EnsureHostInPool az pkg w service nodeName backendPoolID vmSetName isInternal
      = Done (w', updates, hostResult None) ->
      (forall nic', last updates = Some nic' ->
         getPrimaryInterfaceWithVMSet az w' vmName vmSetName = Done (nic', None)) ->
      EnsureHostInPool az pkg w' service nodeName backendPoolID vmSetName isInternal
      = Done (w', [], hostResult None)).
Proof.
  intros vmName. split.
  - intros w nic i configs config Hget Hfailed Hchoice Hconfigs Hconfig
           (before & pool & after & id & Hsplit & Hbefore & Hid & Hfold).
    eapply EnsureHostInPool_found; eauto.
    rewrite Hsplit. eapply poolFound_split; eauto.
  - intros w w' updates Hfirst Hread. pose proof Hfirst as Hcall.
    unfold EnsureHostInPool in Hfirst. fold vmName in Hfirst.
    destruct (getPrimaryInterfaceWithVMSet az w vmName vmSetName)
      as [[nic err]|] eqn:Hget; simpl in Hfirst; [|discriminate].
    destruct err as [e|].
    { destruct e; unfold hostResult in *; simplify_eq; exact Hcall. }
    destruct (nicFailed nic) eqn:Hfailed.
    { destruct (nic_Name nic); simpl in Hfirst;
        unfold hostResult in *; simplify_eq; exact Hcall. }
    destruct (primaryIPConfigOf az pkg service nic) as [[choice cerr]|] eqn:Hchoice;
      simpl in Hfirst; [|discriminate].
    destruct cerr; [unfold hostResult in *; simplify_eq|].
    destruct choice as [i|]; simpl in Hfirst; [|discriminate].
    destruct (IPConfigurations nic) as [configs|] eqn:Hconfigs;
      simpl in Hfirst; [|discriminate].
    destruct (index configs (Z.of_nat i)) as [config|] eqn:Hindex;
      simpl in Hfirst; [|discriminate].
    apply index_inv in Hindex.
    destruct (poolFound backendPoolID (memberships config)) as [[]|] eqn:Hfound;
      simpl in Hfirst; [| |discriminate].
    { unfold hostResult in *; simplify_eq; exact Hcall. }
    match type of Hfirst with
    | context [let '(_, _) := ?check in _] => destruct check as [omit cerr] eqn:Hcheck
    end.
    destruct omit.
    { unfold hostResult in *; simplify_eq; exact Hcall. }
    destruct (nic_Name nic) as [nicName|] eqn:Hname; simpl in Hfirst; [|discriminate].
    match type of Hfirst with
    | context [CreateOrUpdateInterface az w service ?written] =>
        set (nic' := written) in *;
        destruct (CreateOrUpdateInterface az w service nic') as [w'' uerr] eqn:Hupdate
    end.
    destruct uerr; unfold hostResult in Hfirst; simplify_eq.
    specialize (Hread nic' eq_refl).
    eapply (EnsureHostInPool_found w' service nodeName backendPoolID vmSetName
              isInternal nic' i).
    + exact Hread.
    + exact Hfailed.
    + unfold nic'. rewrite primaryIPConfigOf_withBackendPools. exact Hchoice.
    + unfold nic', withBackendPools. simpl. rewrite Hconfigs. reflexivity.
    + rewrite list_lookup_alter_eq, Hindex. reflexivity.
    + simpl. apply poolFound_appended, Hfound.
Qed.

(** C2.  Under the standard SKU, a call of [EnsureHostInPool] that
    reaches the memberships of the primary IP configuration, each with
    its identifier, one of them in a pool of another load balancer
    than the one of the pool asked for, skips the node: it issues no
    update, leaves the cloud as it is and returns no error. *)
Theorem EnsureHostInPool_other_load_balancer (w : W) (service : Service)
    (nodeName backendPoolID vmSetName : string) (isInternal : bool)
    (nic : Interface) (i : nat) (configs : list InterfaceIPConfiguration)
    (config : InterfaceIPConfiguration) (lbName : string) :
  useStandardLoadBalancer az = true ->
  getPrimaryInterfaceWithVMSet az w (mapNodeNameToVMName pkg nodeName) vmSetName
  = Done (nic, None) ->
  nicFailed nic = false ->
  primaryIPConfigOf az pkg service nic = Done (Some i, None) ->
  IPConfigurations nic = Some configs ->
  configs !! i = Some config ->
  Forall (fun pool => pool_ID pool <> None) (memberships config) ->
  parentLoadBalancer backendPoolID = Some lbName ->
  (exists pool id other,
     pool ∈ memberships config /\ pool_ID pool = Some id
     /\ parentLoadBalancer id = Some other /\ other <> lbName) ->
  EnsureHostInPool az pkg w service nodeName backendPoolID vmSetName isInternal
  = Done (w, [], hostResult None).
Proof.
  intros Hsku Hget Hfailed Hchoice Hconfigs Hconfig Hids Hparent
         (pool & id & other & Hin & Hid & Hother & Hne).
  destruct (poolFound_total backendPoolID _ Hids) as [[] Hfound].
  - eapply EnsureHostInPool_found; eauto.
  - unfold EnsureHostInPool. rewrite Hget. simpl. rewrite Hfailed, Hchoice. simpl.
    rewrite Hconfigs. simpl. rewrite (index_lookup _ _ _ Hconfig). simpl.
    rewrite Hfound. simpl. rewrite Hsku.
    assert (Hlen : (Z.of_nat (List.length (memberships config)) >? 0) = true).
    { destruct (memberships config); [inversion Hin | reflexivity]. }
    rewrite Hlen. simpl. unfold isBackendPoolOnSameLB. rewrite Hparent.
    assert (Hfar : other ∈ omap (onOtherLoadBalancer lbName)
                           (omap pool_ID (memberships config))).
    { apply list_elem_of_omap. exists id. split.
      - apply list_elem_of_omap. exists pool. auto.
      - unfold onOtherLoadBalancer. rewrite Hother.
        destruct (String.eqb_spec other lbName); [contradiction | reflexivity]. }
    destruct (omap (onOtherLoadBalancer lbName) (omap pool_ID (memberships config)));
      [inversion Hfar | reflexivity].
Qed.

End Reconciler.

(** ** The VM-set resolver *)

Section Resolver.

Context {U : Unicode} {W : Type} (az : Cloud W) (pkg : Elsewhere).

(** Once [found] is set, no entry fails the validation: each entry is
    replaced by the availability set it matches, or kept. *)
Lemma validateAvailabilitySets_found (availabilitySetNames names : list string) :
  validateAvailabilitySets true availabilitySetNames names
  = (List.map (fun name => default name (firstEqualFold availabilitySetNames name)) names,
     None).
Proof.
  induction names as [|name names IH]; [reflexivity|].
  simpl. destruct (firstEqualFold availabilitySetNames name); simpl;
    rewrite IH; reflexivity.
Qed.

(** The validation fails only on its first entry. *)
Lemma validateAvailabilitySets_first (availabilitySetNames : list string)
    (name : string) (names : list string) :
  validateAvailabilitySets false availabilitySetNames (name :: names)
  = match firstEqualFold availabilitySetNames name with
    | Some candidate =>
        (candidate
         :: List.map (fun name => default name (firstEqualFold availabilitySetNames name))
              names,
         None)
    | None => ([], Some (UnknownVMGroup name))
    end.
Proof.
  simpl. destruct (firstEqualFold availabilitySetNames name); simpl; [|reflexivity].
  rewrite validateAvailabilitySets_found. reflexivity.
Qed.

Lemma insert_sorted_Sorted (x : string) (l : list string) :
  Sorted String.le l -> Sorted String.le (insert_sorted x l).
Proof.
  induction l as [|y l IH]; intros Hl; simpl.
  - repeat constructor.
  - destruct (String.leb x y) eqn:Hxy.
    + constructor; [exact Hl|]. constructor. unfold String.le. rewrite Hxy. exact I.
    + inversion Hl as [|? ? Hsorted Hhd]; subst.
      constructor; [apply IH, Hsorted|].
      assert (Hyx : String.le y x).
      { destruct (String.leb_total x y) as [H|H]; [congruence|].
        unfold String.le. rewrite H. exact I. }
      destruct l as [|z l]; simpl.
      * constructor. exact Hyx.
      * destruct (String.leb x z); constructor; [exact Hyx|].
        inversion Hhd; assumption.
Qed.

(** [sort.Strings] leaves the slice in order, with the same entries. *)
Lemma sort_Strings_Sorted (l : list string) : Sorted String.le (sort_Strings l).
Proof.
  induction l as [|x l IH]; simpl; [constructor | apply insert_sorted_Sorted, IH].
Qed.

Lemma insert_sorted_Permutation (x : string) (l : list string) :
  Permutation (x :: l) (insert_sorted x l).
Proof.
  induction l as [|y l IH]; simpl; [reflexivity|].
  destruct (String.leb x y); [reflexivity|].
  rewrite perm_swap. constructor. exact IH.
Qed.

Lemma sort_Strings_Permutation (l : list string) : Permutation l (sort_Strings l).
Proof.
  induction l as [|x l IH]; simpl; [reflexivity|].
  rewrite <- insert_sorted_Permutation. constructor. exact IH.
Qed.

(** The loop over the nodes consults a set that stays as it was
    given.  With the empty set it appends one name for each node that
    is not a master. *)
Lemma agentPoolAvailabilitySetsOf_length (m : gmap string string)
    (nodes : list Node) (acc names : list string) :
  agentPoolAvailabilitySetsOf m ∅ acc nodes = Done (Some names, None) ->
  List.length names
  = (List.length acc
     + List.length (List.filter (fun node => negb (isMasterNode node)) nodes))%nat.
Proof.
  revert acc. induction nodes as [|node nodes IH]; intros acc; simpl.
  - intros [= <-]. lia.
  - destruct (isMasterNode node); simpl; [apply IH|].
    destruct (m !! node_Name node) as [asID|]; [|discriminate].
    destruct (getLastSegment asID "/") as [[asName [e|]]|]; simpl; try discriminate.
    intros H. apply IH in H. rewrite H, List.length_app. simpl. lia.
Qed.

(** In the automatic mode the names returned are in order. *)
Lemma GetVMSetNames_auto_Sorted (w : W) (service : Service) (nodes : list Node)
    (modeNames names : list string) :
  getServiceLoadBalancerMode pkg service = (true, true, modeNames) ->
  GetVMSetNames az pkg w service nodes = Done (Some names, None) ->
  Sorted String.le names.
Proof.
  intros Hmode. unfold GetVMSetNames. rewrite Hmode. simpl.
  destruct (getAgentPoolAvailabiliySets az w nodes) as [[[found|] [e|]]|];
    simpl; try discriminate.
  destruct (Z.of_nat (List.length found) =? 0); [discriminate|].
  intros [= <-]. apply sort_Strings_Sorted.
Qed.

(** C4.  The service names the groups [as-a] and [as-c]; the nodes
    [n1] and [n2] are backed by the availability sets [as-a] and
    [as-b], none of which is [as-c] up to case.  [GetVMSetNames]
    returns both names and no error. *)
Theorem GetVMSetNames_unknown_group_accepted :
  getServiceLoadBalancerMode examplePackage (explicitService "as-a,as-c")
  = (true, false, ["as-a"; "as-c"])
  /\ getAgentPoolAvailabiliySets (exampleCloud false) exampleWorld
       [nodeNamed "n1"; nodeNamed "n2"]
     = Done (Some ["as-a"; "as-b"], None)
  /\ firstEqualFold ["as-a"; "as-b"] "as-c" = None
  /\ GetVMSetNames (exampleCloud false) examplePackage exampleWorld
       (explicitService "as-a,as-c") [nodeNamed "n1"; nodeNamed "n2"]
     = Done (Some ["as-a"; "as-c"], None).
Proof. repeat split; vm_compute; reflexivity. Qed.

(** C5.  In the automatic mode, with the nodes [n1] and [n3] backed by
    the one availability set [as-a], [GetVMSetNames] returns the name
    twice. *)
Theorem GetVMSetNames_auto_repeats :
  getServiceLoadBalancerMode examplePackage autoService = (true, true, [])
  /\ isMasterNode (nodeNamed "n1") = false
  /\ isMasterNode (nodeNamed "n3") = false
  /\ GetVMSetNames (exampleCloud false) examplePackage exampleWorld
       autoService [nodeNamed "n1"; nodeNamed "n3"]
     = Done (Some ["as-a"; "as-a"], None).
Proof. repeat split; vm_compute; reflexivity. Qed.

End Resolver.

(** ** The properties on the example cloud *)

Lemma getLoadBalancerRuleName_budget_witness :
  getLoadBalancerRuleName (exampleCloud false) examplePackage plainService "TCP" 80
  = Done "web-TCP-80"
  /\ len "a0123456789abcdef0123456789abcde-subnet-0123456789-0123456789-012345678-TCP-8080"
     <= 80.
Proof.
  pose proof (getLoadBalancerRuleName_budget (exampleCloud false) examplePackage) as H.
  split.
  - apply (proj1 (H plainService "TCP" 80)). reflexivity.
  - apply (proj2 (proj2 (H subnetService "TCP" 8080)
                    "subnet-0123456789-0123456789-0123456789x" eq_refl)).
    vm_compute. reflexivity.
Defined.

Lemma getLoadBalancerRuleName_partial_witness :
  getLoadBalancerRuleName (exampleCloud false) examplePackage longService "TCP" 80
  = Panic OutOfRange.
Proof.
  apply (getLoadBalancerRuleName_partial (exampleCloud false) examplePackage
           longService "TCP" 80 "subnet").
  - reflexivity.
  - apply Z.leb_le. vm_compute. reflexivity.
Defined.

Lemma getBackendPoolName_by_family_witness :
  getBackendPoolName examplePackage "foo" plainService = "foo"
  /\ getBackendPoolName examplePackage "foo" (serviceWith "web" "2001:db8::1" ∅)
     = "foo-IPv6".
Proof.
  split.
  - apply (getBackendPoolName_by_family examplePackage "foo" plainService). reflexivity.
  - apply (getBackendPoolName_by_family examplePackage "foo"
             (serviceWith "web" "2001:db8::1" ∅)); reflexivity.
Defined.

Lemma getNextAvailablePriority_smallest_free_witness :
  smallestFree [ruleAt 500; ruleAt 501; ruleAt 502] 503.
Proof.
  apply (getNextAvailablePriority_smallest_free [ruleAt 500; ruleAt 501; ruleAt 502]).
  - repeat constructor; discriminate.
  - vm_compute. reflexivity.
Defined.

Lemma getLastSegment_getStandardMachineID_witness :
  getLastSegment (getStandardMachineID "sub" "RG" "vm-0") "/" = Done ("vm-0", None).
Proof.
  apply (proj1 getLastSegment_getStandardMachineID "sub" "RG" "vm-0").
  - discriminate.
  - reflexivity.
Defined.

Lemma ownership_case_sensitivity_witness :
  serviceOwnsRule (exampleCloud false) plainService "WEB-TCP-80" = true
  /\ serviceOwnsFrontendIP (exampleCloud false) {| fip_Name := Some "WEB-TCP-80" |}
       plainService = Done false
  /\ serviceOwnsRule (exampleCloud false) plainService "web-subnet" = true.
Proof.
  split; [|split].
  - apply (proj1 (proj2 (proj2
             (ownership_case_sensitivity (exampleCloud false) plainService
                "WEB-TCP-80" "web")))).
    + reflexivity.
    + reflexivity.
    + exists "WEB", "-TCP-80". split; reflexivity.
  - reflexivity.
  - apply (proj2 (proj2 (proj2 (proj2
             (ownership_case_sensitivity (exampleCloud false) plainService
                "web-subnet" "web-subnet"))))); reflexivity.
Defined.

Lemma EnsureHostInPool_idempotent_witness :
  EnsureHostInPool (exampleCloud true) examplePackage exampleWorld plainService
    "n2" (poolID "LB1" "foo") "" false
  = Done (exampleWorld, [], hostResult None)
  /\ EnsureHostInPool (exampleCloud true) examplePackage joinedWorld plainService
       "n1" (poolID "lb2" "foo") "" false
     = Done (joinedWorld, [], hostResult None).
Proof.
  pose proof (EnsureHostInPool_idempotent (exampleCloud true) examplePackage
                plainService) as H.
  split.
  - apply (proj1 (H "n2" (poolID "LB1" "foo") "" false) exampleWorld
             (nicWith "n2-nic" (Some [poolOf (poolID "lb1" "foo")])) 0%nat
             [ {| Primary := Some true;
                  PrivateIPAddress := Some "10.240.0.4";
                  PrivateIPAddressVersion := IPv4;
                  LoadBalancerBackendAddressPools := Some [poolOf (poolID "lb1" "foo")] |} ]
             {| Primary := Some true;
                PrivateIPAddress := Some "10.240.0.4";
                PrivateIPAddressVersion := IPv4;
                LoadBalancerBackendAddressPools := Some [poolOf (poolID "lb1" "foo")] |}).
    + vm_compute. reflexivity.
    + reflexivity.
    + reflexivity.
    + reflexivity.
    + reflexivity.
    + exists [], (poolOf (poolID "lb1" "foo")), [], (poolID "lb1" "foo").
      split; [reflexivity|]. split; [constructor|].
      split; [reflexivity | vm_compute; reflexivity].
  - apply (proj2 (H "n1" (poolID "lb2" "foo") "" false) exampleWorld joinedWorld
             [nicWith "n1-nic" (Some [poolOf (poolID "lb2" "foo")])]).
    + vm_compute. reflexivity.
    + intros nic' [= <-]. vm_compute. reflexivity.
Defined.

Lemma EnsureHostInPool_other_load_balancer_witness :
  EnsureHostInPool (exampleCloud true) examplePackage exampleWorld plainService
    "n2" (poolID "lb2" "foo") "" false
  = Done (exampleWorld, [], hostResult None).
Proof.
  apply (EnsureHostInPool_other_load_balancer (exampleCloud true) examplePackage
           exampleWorld plainService "n2" (poolID "lb2" "foo") "" false
           (nicWith "n2-nic" (Some [poolOf (poolID "lb1" "foo")])) 0%nat
           [ {| Primary := Some true;
                PrivateIPAddress := Some "10.240.0.4";
                PrivateIPAddressVersion := IPv4;
                LoadBalancerBackendAddressPools := Some [poolOf (poolID "lb1" "foo")] |} ]
           {| Primary := Some true;
              PrivateIPAddress := Some "10.240.0.4";
              PrivateIPAddressVersion := IPv4;
              LoadBalancerBackendAddressPools := Some [poolOf (poolID "lb1" "foo")] |}
           "lb2").
  - reflexivity.
  - vm_compute. reflexivity.
  - reflexivity.
  - reflexivity.
  - reflexivity.
  - reflexivity.
  - repeat constructor; discriminate.
  - vm_compute. reflexivity.
  - exists (poolOf (poolID "lb1" "foo")), (poolID "lb1" "foo"), "lb1".
    split; [left|]. split; [reflexivity|]. split; [vm_compute; reflexivity | discriminate].
Defined.

(** * Further properties *)

(** ** More on strings *)

Lemma drop_bytes_app (a b : string) : drop_bytes (String.length a) (a +:+ b) = b.
Proof. induction a as [|c a IH]; [destruct b; reflexivity | exact IH]. Qed.

Lemma substring_app (a b : string) : String.substring 0 (String.length a) (a +:+ b) = a.
Proof.
  induction a as [|c a IH]; [destruct b; reflexivity|].
  rewrite app_cons. simpl. now rewrite IH.
Qed.

Lemma prefix_refl (a : string) : String.prefix a a = true.
Proof.
  induction a as [|c a IH]; [reflexivity|].
  simpl. destruct (ascii_dec c c); [exact IH | congruence].
Qed.

Lemma substring_all (s : string) : String.substring 0 (String.length s) s = s.
Proof. induction s as [|c s IH]; simpl; [reflexivity | now rewrite IH]. Qed.

Lemma prefix_length (a s : string) :
  String.prefix a s = true -> (String.length a <= String.length s)%nat.
Proof.
  intros H. apply prefix_inv in H as [rest ->]. rewrite string_length_app. lia.
Qed.

Lemma prefix_false (a s : string) :
  (forall rest, s <> a +:+ rest) -> String.prefix a s = false.
Proof.
  intros H. destruct (String.prefix a s) eqn:Hp; [|reflexivity].
  apply prefix_inv in Hp as [rest ->]. exfalso. exact (H rest eq_refl).
Qed.

(** The first [n] bytes of a text that starts with [a] start with [a]
    as long as [n] reaches the length of [a]. *)
Lemma prefix_substring (a b : string) (n : nat) :
  (String.length a <= n)%nat ->
  String.prefix a (String.substring 0 n (a +:+ b)) = true.
Proof.
  revert n. induction a as [|c a IH]; intros n Hn.
  - destruct (String.substring 0 n (EmptyString +:+ b)); reflexivity.
  - destruct n as [|n]; [simpl in Hn; lia|].
    rewrite app_cons. simpl. destruct (ascii_dec c c); [|congruence].
    apply IH. simpl in Hn. lia.
Qed.

Lemma slice_to_Done (s : string) (n : Z) :
  0 <= n <= len s -> slice_to s n = Done (String.substring 0 (Z.to_nat n) s).
Proof.
  intros H. unfold slice_to. fold (len s).
  destruct (Z.ltb_spec n 0); [lia|]. destruct (Z.ltb_spec (len s) n); [lia|].
  reflexivity.
Qed.

Lemma hasByte_app (c : ascii) (a b : string) :
  hasByte c (a +:+ b) = (hasByte c a || hasByte c b)%bool.
Proof.
  induction a as [|d a IH]; [reflexivity|].
  rewrite app_cons. cbn [hasByte]. rewrite IH. apply Bool.orb_assoc.
Qed.

Lemma hasByte_ReplaceByte (old : ascii) (new s : string) :
  hasByte old new = false -> hasByte old (ReplaceByte old new s) = false.
Proof.
  intros Hnew. induction s as [|c s IH]; [reflexivity|].
  cbn [ReplaceByte]. destruct (Ascii.eqb_spec c old) as [->|Hne].
  - rewrite hasByte_app, Hnew, IH. reflexivity.
  - cbn [hasByte]. rewrite IH.
    destruct (Ascii.eqb_spec old c); [congruence | reflexivity].
Qed.

Lemma hasByte_slash_digits (d : Decimal.uint) :
  hasByte "/" (NilEmpty.string_of_uint d) = false.
Proof. induction d; simpl; auto. Qed.

Lemma hasByte_slash_itoa (n : Z) : hasByte "/" (itoa n) = false.
Proof.
  unfold itoa, NilZero.string_of_int, NilZero.string_of_uint.
  destruct (Z.to_int n) as [d|d]; destruct d; try reflexivity;
    try (apply (hasByte_slash_digits (_ _)));
    cbn [hasByte]; try (apply (hasByte_slash_digits (_ _))).
Qed.

Lemma HasSuffix_app (a b : string) : HasSuffix (a +:+ b) b = true.
Proof.
  unfold HasSuffix. rewrite string_length_app.
  replace (String.length a + String.length b - String.length b)%nat
    with (String.length a) by lia.
  rewrite drop_bytes_app, String.eqb_refl.
  destruct (Nat.leb_spec (String.length b) (String.length a + String.length b)); [reflexivity | lia].
Qed.

Lemma TrimSuffix_app (a b : string) : TrimSuffix (a +:+ b) b = a.
Proof.
  unfold TrimSuffix. rewrite HasSuffix_app, string_length_app.
  replace (String.length a + String.length b - String.length b)%nat
    with (String.length a) by lia.
  apply substring_app.
Qed.

(** ** More on names *)

Section FurtherNames.

Context {U : Unicode} {W : Type} (az : Cloud W) (cfg : Settings) (pkg : Elsewhere).
Variable useSharedSecurityRule : Service -> bool.

(** What [getFrontendIPConfigName] gives for a service with a subnet. *)
Lemma getFrontendIPConfigName_subnet (service : Service) (sub : string) :
  subnet pkg service = Some sub ->
  let full := GetLoadBalancerName az EmptyString service +:+ "-" +:+ sub in
  getFrontendIPConfigName az pkg service
  = Done (String.substring 0 (Z.to_nat (Z.min 80 (len full))) full).
Proof.
  intros Hsub full. unfold getFrontendIPConfigName. rewrite Hsub. fold full.
  unfold frontendIPConfigNameMaxLength.
  pose proof (len_nonneg full) as Hfull.
  destruct (Z.gtb_spec (len full) 80) as [Hgt|Hle].
  - rewrite slice_to_Done by lia. rewrite Z.min_l by lia. reflexivity.
  - rewrite Z.min_r by lia. unfold len. rewrite Nat2Z.id, substring_all. reflexivity.
Qed.

(** X1.  [getFrontendIPConfigName] always returns.  Without a subnet
    it gives the base name, however long.  With a subnet it gives the
    first 80 bytes of [<baseName>-<subnet>], or all of it when it is
    not longer. *)
Theorem getFrontendIPConfigName_budget (service : Service) :
  let baseName := GetLoadBalancerName az EmptyString service in
  exists name,
    getFrontendIPConfigName az pkg service = Done name
    /\ (subnet pkg service = None -> name = baseName)
    /\ (forall sub, subnet pkg service = Some sub ->
        len name <= 80
        /\ exists cut, baseName +:+ "-" +:+ sub = name +:+ cut
                       /\ (cut <> EmptyString -> len name = 80)).
Proof.
  intros baseName. destruct (subnet pkg service) as [sub|] eqn:Hsub.
  - rewrite (getFrontendIPConfigName_subnet service sub Hsub).
    fold baseName. set (full := baseName +:+ "-" +:+ sub).
    eexists. split; [reflexivity|]. split; [discriminate|].
    intros sub' [= <-]. pose proof (len_nonneg full) as Hfull.
    destruct (substring_split full (Z.to_nat (Z.min 80 (len full))))
      as (cut & Hsplit & Hlen & Hcut); [unfold len in *; lia|].
    split; [unfold len at 1; rewrite Hlen; lia|].
    exists cut. split; [exact Hsplit|]. intros Hne.
    assert (0 < String.length cut)%nat by (destruct cut; [congruence | simpl; lia]).
    unfold len in *. rewrite Hlen. lia.
  - exists baseName. unfold getFrontendIPConfigName. rewrite Hsub.
    split; [reflexivity|]. split; [reflexivity | discriminate].
Qed.

(** X2.  A service owns the frontend IP configuration name derived for
    it exactly when it has no subnet or its base name is at most 80
    bytes long: past that the name is cut inside the base name and
    [serviceOwnsFrontendIP] rejects it. *)
Theorem serviceOwnsFrontendIP_own_name (service : Service) (name : string) :
  getFrontendIPConfigName az pkg service = Done name ->
  serviceOwnsFrontendIP az {| fip_Name := Some name |} service = Done true
  <-> (subnet pkg service = None
       \/ len (GetLoadBalancerName az EmptyString service) <= 80).
Proof.
  unfold serviceOwnsFrontendIP. simpl. set (baseName := GetLoadBalancerName az EmptyString service).
  destruct (subnet pkg service) as [sub|] eqn:Hsub.
  - rewrite (getFrontendIPConfigName_subnet service sub Hsub). fold baseName.
    intros [= <-]. set (full := baseName +:+ "-" +:+ sub).
    assert (Hfull : len full = len baseName + 1 + len sub)
      by (unfold full; rewrite !len_app; change (len "-") with 1; lia).
    pose proof (len_nonneg sub). pose proof (len_nonneg baseName).
    split.
    + intros [= Hown]. right. apply prefix_length in Hown.
      destruct (substring_split full (Z.to_nat (Z.min 80 (len full))))
        as (cut & _ & Hlen & _); [unfold len in *; lia|].
      rewrite Hlen in Hown. unfold len in *. lia.
    + intros [Hnone | Hle]; [discriminate|]. f_equal.
      unfold HasPrefix.
      apply (prefix_substring baseName ("-" +:+ sub)). fold full. unfold len in *. lia.
  - unfold getFrontendIPConfigName. rewrite Hsub. intros [= <-]. split; [auto|].
    intros _. f_equal. apply prefix_refl.
Qed.

(** X3.  A service owns the load-balancer rule names derived for it,
    when they are ASCII. *)
Theorem serviceOwnsRule_own_rule_name (service : Service) (protocol : string)
    (port : Z) (name : string) :
  getLoadBalancerRuleName az pkg service protocol port = Done name ->
  isASCII name = true ->
  serviceOwnsRule az service name = true.
Proof.
  intros Hname Hascii.
  assert (Hrest : exists rest, name = getRulePrefix az service +:+ rest).
  { destruct (subnet pkg service) as [sub|] eqn:Hsub.
    - destruct (getLoadBalancerRuleName_cases az pkg service protocol port sub Hsub)
        as [Hpanic Hdone].
      destruct (Z_lt_le_dec (len (baseRuleName az service protocol port)) 80) as [Hlt|Hge].
      + destruct (Hdone Hlt) as (segment & cut & _ & _ & Heq).
        rewrite Heq in Hname. injection Hname as <-. eauto.
      + rewrite (Hpanic Hge) in Hname. discriminate.
    - unfold getLoadBalancerRuleName in Hname. rewrite Hsub in Hname.
      injection Hname as <-. eauto. }
  destruct Hrest as [rest ->].
  rewrite isASCII_app in Hascii. apply Bool.andb_true_iff in Hascii as [Hp Hr].
  apply serviceOwnsRule_ascii.
  - rewrite isASCII_app, Hp, Hr. reflexivity.
  - exact Hp.
  - exists (getRulePrefix az service), rest. split; [reflexivity | apply EqualFold_refl].
Qed.

(** X4.  The name of a security rule holds no slash when the protocol
    holds none and, for a rule that is not shared, the rule prefix of
    the service holds none: every slash of the source address prefix
    is replaced. *)
Theorem getSecurityRuleName_no_slash (service : Service) (port : ServicePort)
    (sourceAddrPrefix : string) :
  hasByte "/" (port_Protocol port) = false ->
  (useSharedSecurityRule service = false ->
   hasByte "/" (getRulePrefix az service) = false) ->
  hasByte "/" (getSecurityRuleName az useSharedSecurityRule service port sourceAddrPrefix)
  = false.
Proof.
  intros Hprotocol Hprefix. unfold getSecurityRuleName.
  destruct (useSharedSecurityRule service).
  - rewrite !hasByte_app, Hprotocol, hasByte_slash_itoa, hasByte_ReplaceByte by reflexivity.
    reflexivity.
  - rewrite !hasByte_app, Hprotocol, hasByte_slash_itoa, hasByte_ReplaceByte by reflexivity.
    rewrite Hprefix by reflexivity. reflexivity.
Qed.

(** X5.  The name of a shared security rule is the same for every
    service that shares it, while a service owns the names of its
    rules that are not shared, when they are ASCII. *)
Theorem getSecurityRuleName_shared_or_owned (service other : Service)
    (port : ServicePort) (sourceAddrPrefix : string) :
  (useSharedSecurityRule service = true ->
   useSharedSecurityRule other = true ->
   getSecurityRuleName az useSharedSecurityRule service port sourceAddrPrefix
   = getSecurityRuleName az useSharedSecurityRule other port sourceAddrPrefix)
  /\ (useSharedSecurityRule service = false ->
      isASCII (getSecurityRuleName az useSharedSecurityRule service port sourceAddrPrefix)
      = true ->
      serviceOwnsRule az service
        (getSecurityRuleName az useSharedSecurityRule service port sourceAddrPrefix)
      = true).
Proof.
  unfold getSecurityRuleName. split.
  - intros -> ->. reflexivity.
  - intros ->. intros Hascii.
    rewrite isASCII_app in Hascii. apply Bool.andb_true_iff in Hascii as [Hp Hr].
    apply serviceOwnsRule_ascii.
    + rewrite isASCII_app, Hp, Hr. reflexivity.
    + exact Hp.
    + eexists _, _. split; [reflexivity | apply EqualFold_refl].
Qed.

(** X6.  The name of an internal load balancer is the name of the
    public one followed by ["-internal"]; [isInternalLoadBalancer]
    accepts it, and trimming the suffix gives the public name back. *)
Theorem getAzureLoadBalancerName_internal (clusterName vmSetName : string) :
  let public := getAzureLoadBalancerName az cfg clusterName vmSetName false in
  let internal := getAzureLoadBalancerName az cfg clusterName vmSetName true in
  internal = public +:+ "-internal"
  /\ isInternalLoadBalancer {| lb_Name := Some internal |} = Done true
  /\ TrimSuffix internal InternalLoadBalancerNameSuffix = public.
Proof.
  intros public internal.
  assert (Heq : internal = public +:+ InternalLoadBalancerNameSuffix) by reflexivity.
  split; [exact Heq|]. rewrite Heq. split.
  - unfold isInternalLoadBalancer. simpl. rewrite HasSuffix_app. reflexivity.
  - apply TrimSuffix_app.
Qed.

(** X7.  Without a configured load balancer name, and for a name that
    is internal or does not itself end in ["-internal"],
    [mapLoadBalancerNameToVMSet] undoes [getAzureLoadBalancerName]:
    under the standard SKU, or for a set equal to the primary one up
    to case, it gives the primary set; under the basic SKU, for
    another set that is not the cluster name up to case, it gives the
    set back. *)
Theorem mapLoadBalancerNameToVMSet_getAzureLoadBalancerName
    (clusterName vmSetName : string) (isInternal : bool) :
  LoadBalancerName cfg = EmptyString ->
  (isInternal = false ->
   HasSuffix (getAzureLoadBalancerName az cfg clusterName vmSetName false)
     InternalLoadBalancerNameSuffix = false) ->
  let back :=
    mapLoadBalancerNameToVMSet cfg
      (getAzureLoadBalancerName az cfg clusterName vmSetName isInternal) clusterName in
  ((EqualFold vmSetName (VMSet_GetPrimaryVMSetName cfg) = true
    \/ useStandardLoadBalancer az = true) ->
   back = VMSet_GetPrimaryVMSetName cfg)
  /\ (EqualFold vmSetName (VMSet_GetPrimaryVMSetName cfg) = false ->
      useStandardLoadBalancer az = false ->
      EqualFold clusterName vmSetName = false ->
      back = vmSetName).
Proof.
  intros Hname Hsuffix back.
  assert (Htrim : TrimSuffix (getAzureLoadBalancerName az cfg clusterName vmSetName isInternal)
                    InternalLoadBalancerNameSuffix
                  = getAzureLoadBalancerName az cfg clusterName vmSetName false).
  { destruct isInternal.
    - change (getAzureLoadBalancerName az cfg clusterName vmSetName true)
        with (getAzureLoadBalancerName az cfg clusterName vmSetName false
              +:+ InternalLoadBalancerNameSuffix).
      apply TrimSuffix_app.
    - unfold TrimSuffix. rewrite Hsuffix; reflexivity. }
  unfold back, mapLoadBalancerNameToVMSet. rewrite Htrim.
  unfold getAzureLoadBalancerName. rewrite Hname. simpl. split.
  - intros Hprimary.
    assert ((EqualFold vmSetName (VMSet_GetPrimaryVMSetName cfg)
             || useStandardLoadBalancer az)%bool = true) as ->
      by (destruct Hprimary as [-> | ->]; [reflexivity | apply Bool.orb_true_r]).
    rewrite EqualFold_refl. reflexivity.
  - intros Hother Hbasic Hcluster. rewrite Hother, Hbasic. simpl.
    rewrite Hcluster. reflexivity.
Qed.

End FurtherNames.

(** ** Matching *)

Section Matching.

Context {R : Type}.























End Matching.

(** ** Identifiers read back *)

Section ReadBack.

Context {U : Unicode} {W : Type} (az : Cloud W) (cfg : Settings).










End ReadBack.

(** ** Last segments and chosen configurations *)

Section Segments.

Context {U : Unicode}.

(** The parts of a text cut at its slashes end with a part without a
    slash, which ends the text, alone or after a slash. *)
Lemma genSplit_slash_last (s : string) :
  exists init final,
    genSplit "/" 0 s = init ++ [final]
    /\ hasByte "/" final = false
    /\ ((init = [] /\ s = final)
        \/ (init <> [] /\ exists before, s = before +:+ String "/" final)).
Proof.
  induction s as [|c s (init & final & Hsplit & Hfinal & Hshape)].
  - exists [], EmptyString. auto.
  - rewrite genSplit_slash_cons, Hsplit.
    destruct (Ascii.eqb_spec "/" c) as [<-|Hne].
    + exists (EmptyString :: init), final. split; [reflexivity|]. split; [exact Hfinal|].
      right. split; [discriminate|].
      destruct Hshape as [[-> ->] | [_ [before ->]]].
      * exists EmptyString. reflexivity.
      * exists (String "/" before). reflexivity.
    + destruct Hshape as [[-> ->] | [Hinit [before ->]]].
      * exists [], (String c final). split; [reflexivity|]. split.
        -- cbn [hasByte]. rewrite Hfinal.
           destruct (Ascii.eqb_spec "/" c); [contradiction | reflexivity].
        -- left. auto.
      * destruct init as [|piece init]; [contradiction|].
        exists (String c piece :: init), final. split; [reflexivity|].
        split; [exact Hfinal|]. right. split; [discriminate|].
        exists (String c before). reflexivity.
Qed.

(** X11.  With the separator ["/"], [getLastSegment] always returns.
    It gives a name that is not empty, holds no slash and ends the
    identifier, alone or right after a slash; or it fails, and then
    the identifier is empty or ends with a slash. *)
Theorem getLastSegment_slash (ID : string) :
  (exists name,
     getLastSegment ID "/" = Done (name, None)
     /\ name <> EmptyString
     /\ hasByte "/" name = false
     /\ (ID = name \/ exists before, ID = before +:+ "/" +:+ name))
  \/ (getLastSegment ID "/" = Done (EmptyString, Some MalformedIdentifier)
      /\ (ID = EmptyString \/ exists before, ID = before +:+ "/")).
Proof.
  rewrite getLastSegment_last. unfold Split.
  destruct (genSplit_slash_last ID) as (init & final & -> & Hfinal & Hshape).
  rewrite last_snoc. destruct final as [|c final].
  - right. split; [reflexivity|].
    destruct Hshape as [[_ ->] | [_ [before ->]]]; [left; reflexivity | right; eauto].
  - left. exists (String c final). split; [reflexivity|]. split; [discriminate|].
    split; [exact Hfinal|].
    destruct Hshape as [[_ ->] | [_ [before ->]]]; [left; reflexivity | right; eauto].
Qed.

(** The loop of [getPrimaryIPConfig] stops at the first configuration
    flagged primary, having read a flag on each one before it. *)
Lemma primaryIPConfigFrom_first (k : nat) (configs : list InterfaceIPConfiguration) (i : nat) :
  primaryIPConfigFrom k configs = Done (Some i)
  <-> exists j config,
        i = (k + j)%nat
        /\ configs !! j = Some config
        /\ Primary config = Some true
        /\ forall j' c, (j' < j)%nat -> configs !! j' = Some c -> Primary c = Some false.
Proof.
  revert k. induction configs as [|first configs IH]; intros k.
  - simpl. split; [discriminate|]. intros (j & config & _ & Hlookup & _). discriminate.
  - cbn [primaryIPConfigFrom]. destruct (Primary first) as [[]|] eqn:Hfirst; simpl.
    + split.
      * intros [= <-]. exists 0%nat, first. split; [lia|]. split; [reflexivity|].
        split; [exact Hfirst|]. intros j' c Hj'. lia.
      * intros (j & config & -> & Hlookup & Hprimary & Hbefore).
        destruct j as [|j]; [do 2 f_equal; lia|].
        specialize (Hbefore 0%nat first (Nat.lt_0_succ j) eq_refl). congruence.
    + rewrite IH. split.
      * intros (j & config & -> & Hlookup & Hprimary & Hbefore).
        exists (S j), config. split; [lia|]. split; [exact Hlookup|].
        split; [exact Hprimary|]. intros [|j'] c Hj' Hc.
        -- injection Hc as <-. exact Hfirst.
        -- apply (Hbefore j' c); [lia | exact Hc].
      * intros (j & config & -> & Hlookup & Hprimary & Hbefore).
        destruct j as [|j]; [simpl in Hlookup; congruence|].
        exists j, config. split; [lia|]. split; [exact Hlookup|].
        split; [exact Hprimary|]. intros j' c Hj' Hc.
        apply (Hbefore (S j') c); [lia | exact Hc].
    + split; [discriminate|].
      intros (j & config & -> & Hlookup & Hprimary & Hbefore).
      destruct j as [|j]; [simpl in Hlookup; congruence|].
      specialize (Hbefore 0%nat first (Nat.lt_0_succ j) eq_refl). congruence.
Qed.

(** X12.  [getPrimaryIPConfig] takes the one configuration of an
    interface that has exactly one, whatever its flag, even missing.
    Otherwise it points to [i] exactly when configuration [i] is
    flagged primary and every configuration before it is flagged not
    primary. *)
Theorem getPrimaryIPConfig_choice (nic : Interface)
    (configs : list InterfaceIPConfiguration) (i : nat) :
  IPConfigurations nic = Some configs ->
  (List.length configs = 1%nat -> getPrimaryIPConfig nic = Done (Some 0%nat, None))
  /\ (List.length configs <> 1%nat ->
      (getPrimaryIPConfig nic = Done (Some i, None)
       <-> exists config,
             configs !! i = Some config
             /\ Primary config = Some true
             /\ forall j c, (j < i)%nat -> configs !! j = Some c ->
                  Primary c = Some false)).
Proof.
  intros Hconfigs. unfold getPrimaryIPConfig. rewrite Hconfigs. split.
  - intros ->. reflexivity.
  - intros Hlen.
    destruct (Z.eqb_spec (Z.of_nat (List.length configs)) 1) as [Hone|_]; [lia|].
    pose proof (primaryIPConfigFrom_first 0 configs i) as Hfirst.
    destruct (primaryIPConfigFrom 0 configs) as [[k|]|] eqn:Hfrom; simpl.
    + split.
      * intros [= ->]. destruct (proj1 Hfirst eq_refl) as (j & config & -> & H).
        exists config. exact H.
      * intros (config & H). f_equal. f_equal.
        assert (Hi : Done (Some k) = Done (Some i))
          by (apply Hfirst; exists i, config; split; [reflexivity | exact H]).
        congruence.
    + split.
      * destruct (nic_Name nic); simpl; discriminate.
      * intros (config & H).
        assert (Hi : @Done (option nat) None = Done (Some i))
          by (apply Hfirst; exists i, config; split; [reflexivity | exact H]).
        discriminate.
    + split; [discriminate|].
      intros (config & H).
      assert (Hi : @Panic (option nat) p = Done (Some i))
        by (apply Hfirst; exists i, config; split; [reflexivity | exact H]).
      discriminate.
Qed.

(** The loop of [getIPConfigByIPFamily] stops at the first
    configuration with an address of the version asked for. *)
Lemma ipConfigOfVersionFrom_first (ipVersion : string) (k : nat)
    (configs : list InterfaceIPConfiguration) (i : nat) :
  ipConfigOfVersionFrom ipVersion k configs = Some i
  <-> exists j config,
        i = (k + j)%nat
        /\ configs !! j = Some config
        /\ PrivateIPAddress config <> None
        /\ PrivateIPAddressVersion config = ipVersion
        /\ forall j' c, (j' < j)%nat -> configs !! j' = Some c ->
             PrivateIPAddress c = None \/ PrivateIPAddressVersion c <> ipVersion.
Proof.
  revert k. induction configs as [|first configs IH]; intros k.
  - simpl. split; [discriminate|]. intros (j & config & _ & Hlookup & _). discriminate.
  - cbn [ipConfigOfVersionFrom].
    assert (Hfits : (notNil (PrivateIPAddress first)
                     && String.eqb (PrivateIPAddressVersion first) ipVersion)%bool = true
                    <-> PrivateIPAddress first <> None
                        /\ PrivateIPAddressVersion first = ipVersion).
    { rewrite Bool.andb_true_iff, String.eqb_eq.
      destruct (PrivateIPAddress first); simpl; split; intros [H1 H2];
        (split; [congruence | exact H2]). }
    destruct (notNil (PrivateIPAddress first)
              && String.eqb (PrivateIPAddressVersion first) ipVersion)%bool eqn:Hfirst.
    + destruct (proj1 Hfits eq_refl) as [Haddress Hversion]. split.
      * intros [= <-]. exists 0%nat, first. split; [lia|]. split; [reflexivity|].
        split; [exact Haddress|]. split; [exact Hversion|]. intros j' c Hj'. lia.
      * intros (j & config & -> & Hlookup & _ & _ & Hbefore).
        destruct j as [|j]; [f_equal; lia|].
        destruct (Hbefore 0%nat first (Nat.lt_0_succ j) eq_refl); contradiction.
    + assert (Hnot : PrivateIPAddress first = None
                     \/ PrivateIPAddressVersion first <> ipVersion).
      { destruct (PrivateIPAddress first) eqn:Ha; [|left; reflexivity]. right.
        intros Hv. assert (false = true) by (apply Hfits; split; congruence).
        discriminate. }
      rewrite IH. split.
      * intros (j & config & -> & Hlookup & Ha & Hv & Hbefore).
        exists (S j), config. split; [lia|]. split; [exact Hlookup|].
        split; [exact Ha|]. split; [exact Hv|]. intros [|j'] c Hj' Hc.
        -- injection Hc as <-. exact Hnot.
        -- apply (Hbefore j' c); [lia | exact Hc].
      * intros (j & config & -> & Hlookup & Ha & Hv & Hbefore).
        destruct j as [|j].
        -- injection Hlookup as <-. destruct Hnot; contradiction.
        -- exists j, config. split; [lia|]. split; [exact Hlookup|].
           split; [exact Ha|]. split; [exact Hv|]. intros j' c Hj' Hc.
           apply (Hbefore (S j') c); [lia | exact Hc].
Qed.

(** X13.  [getIPConfigByIPFamily] points to [i] exactly when
    configuration [i] is the first one that has a private address and
    the IP version asked for; when there is none it fails, provided
    the interface has a name. *)
Theorem getIPConfigByIPFamily_choice (nic : Interface)
    (configs : list InterfaceIPConfiguration) (v6 : bool) (i : nat) :
  IPConfigurations nic = Some configs ->
  let ipVersion := if v6 then IPv6 else IPv4 in
  (getIPConfigByIPFamily nic v6 = Done (Some i, None)
   <-> exists config,
         configs !! i = Some config
         /\ PrivateIPAddress config <> None
         /\ PrivateIPAddressVersion config = ipVersion
         /\ forall j c, (j < i)%nat -> configs !! j = Some c ->
              PrivateIPAddress c = None \/ PrivateIPAddressVersion c <> ipVersion)
  /\ (forall name, nic_Name nic = Some name ->
      (forall c, c ∈ configs ->
         PrivateIPAddress c = None \/ PrivateIPAddressVersion c <> ipVersion) ->
      getIPConfigByIPFamily nic v6 = Done (None, Some (NoIPConfigOfFamily v6 name))).
Proof.
  intros Hconfigs ipVersion. unfold getIPConfigByIPFamily. rewrite Hconfigs.
  fold ipVersion.
  pose proof (ipConfigOfVersionFrom_first ipVersion 0 configs) as Hfirst.
  split.
  - destruct (ipConfigOfVersionFrom ipVersion 0 configs) as [k|] eqn:Hfrom.
    + split.
      * intros [= <-]. destruct (proj1 (Hfirst k) eq_refl) as (j & config & -> & H).
        exists config. exact H.
      * intros (config & H). do 2 f_equal.
        assert (Hi : Some k = Some i)
          by (apply Hfirst; exists i, config; split; [reflexivity | exact H]).
        congruence.
    + split.
      * destruct (nic_Name nic); simpl; discriminate.
      * intros (config & H).
        assert (Hi : @None nat = Some i)
          by (apply Hfirst; exists i, config; split; [reflexivity | exact H]).
        discriminate.
  - intros name Hname Hnone.
    destruct (ipConfigOfVersionFrom ipVersion 0 configs) as [k|] eqn:Hfrom.
    + destruct (proj1 (Hfirst k) eq_refl) as (j & config & _ & Hlookup & Ha & Hv & _).
      apply list_elem_of_lookup_2 in Hlookup.
      destruct (Hnone config Hlookup); contradiction.
    + rewrite Hname. reflexivity.
Qed.

(** The loop of [getPrimaryInterfaceID] stops at the first reference
    flagged primary, having read a flag on each one before it, and
    reads the identifier of that reference. *)
Lemma primaryReference_first (refs : list NetworkInterfaceReference) (id : string) :
  primaryReference refs = Done (Some id)
  <-> exists j ref,
        refs !! j = Some ref
        /\ ref_Primary ref = Some true
        /\ ref_ID ref = Some id
        /\ forall j' r, (j' < j)%nat -> refs !! j' = Some r -> ref_Primary r = Some false.
Proof.
  induction refs as [|first refs IH].
  - simpl. split; [discriminate|]. intros (j & ref & Hlookup & _). discriminate.
  - cbn [primaryReference]. destruct (ref_Primary first) as [[]|] eqn:Hfirst; simpl.
    + split.
      * intros Hid. exists 0%nat, first. split; [reflexivity|]. split; [exact Hfirst|].
        split; [destruct (ref_ID first); simpl in Hid; congruence|].
        intros j' r Hj'. lia.
      * intros (j & ref & Hlookup & Hprimary & Hid & Hbefore).
        destruct j as [|j].
        -- injection Hlookup as <-. rewrite Hid. reflexivity.
        -- specialize (Hbefore 0%nat first (Nat.lt_0_succ j) eq_refl). congruence.
    + rewrite IH. split.
      * intros (j & ref & Hlookup & Hprimary & Hid & Hbefore).
        exists (S j), ref. split; [exact Hlookup|]. split; [exact Hprimary|].
        split; [exact Hid|]. intros [|j'] r Hj' Hr.
        -- injection Hr as <-. exact Hfirst.
        -- apply (Hbefore j' r); [lia | exact Hr].
      * intros (j & ref & Hlookup & Hprimary & Hid & Hbefore).
        destruct j as [|j]; [simpl in Hlookup; congruence|].
        exists j, ref. split; [exact Hlookup|]. split; [exact Hprimary|].
        split; [exact Hid|]. intros j' r Hj' Hr.
        apply (Hbefore (S j') r); [lia | exact Hr].
    + split; [discriminate|].
      intros (j & ref & Hlookup & Hprimary & Hid & Hbefore).
      destruct j as [|j]; [simpl in Hlookup; congruence|].
      specialize (Hbefore 0%nat first (Nat.lt_0_succ j) eq_refl). congruence.
Qed.

(** X24.  [getPrimaryInterfaceID] on a machine with one interface
    gives the identifier of that interface without reading its flag.
    With no or several interfaces it gives an identifier exactly when
    that is the identifier of the first interface flagged primary and
    every interface before it carries a flag that says no; when every
    interface carries a flag that says no, it fails with the name of
    the machine. *)
Theorem getPrimaryInterfaceID_choice (machine : VirtualMachine)
    (refs : list NetworkInterfaceReference) (id : string) :
  NetworkInterfaces machine = Some refs ->
  (forall ref, refs = [ref] -> ref_ID ref = Some id ->
     getPrimaryInterfaceID machine = Done (id, None))
  /\ (List.length refs <> 1%nat ->
      (getPrimaryInterfaceID machine = Done (id, None)
       <-> exists j ref,
             refs !! j = Some ref
             /\ ref_Primary ref = Some true
             /\ ref_ID ref = Some id
             /\ forall j' r, (j' < j)%nat -> refs !! j' = Some r ->
                  ref_Primary r = Some false)
      /\ (forall name, vm_Name machine = Some name ->
          (forall r, r ∈ refs -> ref_Primary r = Some false) ->
          getPrimaryInterfaceID machine = Done (EmptyString, Some (NoPrimaryNic name)))).
Proof.
  intros Hrefs. unfold getPrimaryInterfaceID. rewrite Hrefs. simpl. split.
  - intros ref -> Hid. simpl. rewrite Hid. reflexivity.
  - intros Hlen.
    destruct (Z.eqb_spec (Z.of_nat (List.length refs)) 1) as [Hone|_]; [lia|].
    split.
    + rewrite <- primaryReference_first.
      destruct (primaryReference refs) as [[found|]|]; simpl.
      * split; intros [= ->]; reflexivity.
      * destruct (vm_Name machine); simpl; split; discriminate.
      * split; discriminate.
    + intros name Hname Hnone.
      assert (Hloop : primaryReference refs = Done None).
      { clear Hlen Hrefs. induction refs as [|first refs IH]; [reflexivity|].
        cbn [primaryReference]. rewrite (Hnone first) by left. simpl.
        apply IH. intros r Hr. apply Hnone. right. exact Hr. }
      rewrite Hloop. simpl. rewrite Hname. reflexivity.
Qed.

End Segments.

(** ** More on the reconciler *)

Section FurtherReconciler.

Context {U : Unicode} {W : Type} (az : Cloud W) (cfg : Settings) (pkg : Elsewhere).

(** X14.  Under the standard SKU the set of machines named in the call
    plays no part in reading the primary interface: the result is the
    one of [GetPrimaryInterface]. *)
Theorem getPrimaryInterfaceWithVMSet_standard (w : W) (nodeName vmSetName : string) :
  useStandardLoadBalancer az = true ->
  getPrimaryInterfaceWithVMSet az w nodeName vmSetName
  = GetPrimaryInterface az w nodeName.
Proof.
  intros Hsku. unfold GetPrimaryInterface, getPrimaryInterfaceWithVMSet.
  rewrite Hsku. cbn [negb]. rewrite !Bool.andb_false_r. reflexivity.
Qed.

(** X15.  Under the basic SKU, with a set named in the call, a machine
    that is in no availability set, or in one whose identifier is not
    the one of the named set up to case, is skipped by
    [EnsureHostInPool]: no update, no error. *)
Theorem EnsureHostInPool_not_in_vmSet (w : W) (service : Service)
    (nodeName backendPoolID vmSetName : string) (isInternal : bool)
    (machine : VirtualMachine) (primaryNicID nicName nodeResourceGroup : string) :
  let vmName := mapNodeNameToVMName pkg nodeName in
  useStandardLoadBalancer az = false ->
  vmSetName <> EmptyString ->
  GetVirtualMachineWithRetry az w vmName = (machine, None) ->
  getPrimaryInterfaceID machine = Done (primaryNicID, None) ->
  getLastSegment primaryNicID "/" = Done (nicName, None) ->
  GetNodeResourceGroup az vmName = (nodeResourceGroup, None) ->
  (AvailabilitySet machine = None
   \/ exists id, AvailabilitySet machine = Some {| sub_ID := Some id |}
                 /\ EqualFold id (getAvailabilitySetID az nodeResourceGroup vmSetName)
                    = false) ->
  getPrimaryInterfaceWithVMSet az w vmName vmSetName = Done (noInterface, Some errNotInVMSet)
  /\ EnsureHostInPool az pkg w service nodeName backendPoolID vmSetName isInternal
     = Done (w, [], hostResult None).
Proof.
  intros vmName Hsku Hset Hmachine Hid Hsegment Hgroup Hout.
  assert (Hread : getPrimaryInterfaceWithVMSet az w vmName vmSetName
                  = Done (noInterface, Some errNotInVMSet)).
  { unfold getPrimaryInterfaceWithVMSet.
    rewrite Hmachine, Hid. simpl. rewrite Hsegment. simpl. rewrite Hgroup, Hsku.
    destruct (String.eqb_spec vmSetName EmptyString) as [|_]; [contradiction|]. simpl.
    destruct Hout as [-> | (id & -> & Hfold)]; simpl; [reflexivity|].
    rewrite Hfold. reflexivity. }
  split; [exact Hread|].
  unfold EnsureHostInPool. fold vmName. rewrite Hread. reflexivity.
Qed.

Lemma poolFound_absent (backendPoolID : string) (pools : list BackendAddressPool) :
  (forall pool, pool ∈ pools ->
     exists id, pool_ID pool = Some id /\ EqualFold backendPoolID id = false) ->
  poolFound backendPoolID pools = Done false.
Proof.
  induction pools as [|pool pools IH]; intros H; [reflexivity|].
  cbn [poolFound]. destruct (H pool) as (id & Hid & Hfold); [left|].
  rewrite Hid. simpl. rewrite Hfold.
  apply IH. intros other Hother. apply H. right. exact Hother.
Qed.



(** X17.  When the pool is not among the memberships of the chosen IP
    configuration, each carrying its identifier, and the SKU is basic
    or the configuration has no membership yet, [EnsureHostInPool]
    issues the update that appends the pool, and returns the error of
    that update, if any. *)
Theorem EnsureHostInPool_appends (w : W) (service : Service)
    (nodeName backendPoolID vmSetName : string) (isInternal : bool)
    (nic : Interface) (i : nat) (configs : list InterfaceIPConfiguration)
    (config : InterfaceIPConfiguration) :
  getPrimaryInterfaceWithVMSet az w (mapNodeNameToVMName pkg nodeName) vmSetName
  = Done (nic, None) ->
  nicFailed nic = false ->
  nic_Name nic <> None ->
  primaryIPConfigOf az pkg service nic = Done (Some i, None) ->
  IPConfigurations nic = Some configs ->
  configs !! i = Some config ->
  (forall pool, pool ∈ memberships config ->
     exists id, pool_ID pool = Some id /\ EqualFold backendPoolID id = false) ->
  (useStandardLoadBalancer az = false \/ memberships config = []) ->
  let written :=
    withBackendPools nic i
      (memberships config ++ [ {| pool_ID := Some backendPoolID |} ]) in
  EnsureHostInPool az pkg w service nodeName backendPoolID vmSetName isInternal
  = Done (fst (CreateOrUpdateInterface az w service written), [written],
          hostResult (snd (CreateOrUpdateInterface az w service written))).
Proof.
  intros Hget Hfailed Hname Hchoice Hconfigs Hconfig Habsent Hplain written.
  unfold EnsureHostInPool. rewrite Hget. simpl. rewrite Hfailed, Hchoice. simpl.
  rewrite Hconfigs. simpl. rewrite (index_lookup _ _ _ Hconfig). simpl.
  rewrite (poolFound_absent _ _ Habsent). simpl.
  assert (Hcheck : (useStandardLoadBalancer az
                    && (Z.of_nat (List.length (memberships config)) >? 0))%bool = false).
  { destruct Hplain as [-> | ->]; [reflexivity | apply Bool.andb_false_r]. }
  rewrite Hcheck. destruct (nic_Name nic) as [name|] eqn:Hn; [|contradiction]. simpl.
  fold written. destruct (CreateOrUpdateInterface az w service written) as [w' [e|]];
    reflexivity.
Qed.

End FurtherReconciler.

(** ** More on the VM-set resolver *)

Section FurtherResolver.

Context {U : Unicode} {W : Type} (az : Cloud W) (pkg : Elsewhere).

Lemma firstEqualFold_None (availabilitySetNames : list string) (name : string) :
  firstEqualFold availabilitySetNames name = None
  <-> forall candidate, candidate ∈ availabilitySetNames ->
        EqualFold candidate name = false.
Proof.
  induction availabilitySetNames as [|first rest IH]; simpl.
  - split; [intros _ candidate Hin; inversion Hin | reflexivity].
  - destruct (EqualFold first name) eqn:Hfirst.
    + split; [discriminate|]. intros H. rewrite (H first) in Hfirst; [discriminate | left].
    + rewrite IH. split.
      * intros H candidate Hin. inversion Hin; subst; [exact Hfirst | auto].
      * intros H candidate Hin. apply H. right. exact Hin.
Qed.

Lemma firstEqualFold_Some (availabilitySetNames : list string) (name candidate : string) :
  firstEqualFold availabilitySetNames name = Some candidate ->
  candidate ∈ availabilitySetNames /\ EqualFold candidate name = true.
Proof.
  induction availabilitySetNames as [|first rest IH]; simpl; [discriminate|].
  destruct (EqualFold first name) eqn:Hfirst.
  - intros [= <-]. split; [left | exact Hfirst].
  - intros H. destruct (IH H). split; [right|]; assumption.
Qed.

Lemma sort_Strings_elem_of (l : list string) (x : string) :
  x ∈ sort_Strings l <-> x ∈ l.
Proof.
  rewrite !list_elem_of_In. split; apply Permutation_in.
  - symmetry. apply sort_Strings_Permutation.
  - apply sort_Strings_Permutation.
Qed.

(** X18.  With an explicit list of groups, [GetVMSetNames] checks the
    first entry only.  It fails with [UnknownVMGroup] naming the first
    entry exactly when no availability set found for the nodes equals
    it up to case.  Otherwise it succeeds whatever the other entries
    are: each entry is replaced by the first availability set, in
    sorted order, that equals it up to case, and an entry that matches
    none is returned as it is. *)
Theorem GetVMSetNames_explicit (w : W) (service : Service) (nodes : list Node)
    (name : string) (others found : list string) :
  getServiceLoadBalancerMode pkg service = (true, false, name :: others) ->
  getAgentPoolAvailabiliySets az w nodes = Done (Some found, None) ->
  found <> [] ->
  let matched := fun entry => default entry (firstEqualFold (sort_Strings found) entry) in
  ((forall candidate, candidate ∈ found -> EqualFold candidate name = false) ->
   GetVMSetNames az pkg w service nodes = Done (None, Some (UnknownVMGroup name)))
  /\ ((exists candidate, candidate ∈ found /\ EqualFold candidate name = true) ->
      GetVMSetNames az pkg w service nodes
      = Done (Some (matched name :: List.map matched others), None)
      /\ matched name ∈ found
      /\ EqualFold (matched name) name = true).
Proof.
  intros Hmode Hfound Hne matched.
  assert (Hcall : GetVMSetNames az pkg w service nodes
                  = match validateAvailabilitySets false (sort_Strings found)
                            (name :: others) with
                    | (_, Some e) => Done (None, Some e)
                    | (validated, None) => Done (Some validated, None)
                    end).
  { unfold GetVMSetNames. rewrite Hmode, Hfound. simpl.
    destruct found as [|first found]; [contradiction|]. reflexivity. }
  rewrite Hcall, validateAvailabilitySets_first. split.
  - intros Hnone.
    assert (firstEqualFold (sort_Strings found) name = None) as ->; [|reflexivity].
    apply firstEqualFold_None. intros candidate Hin.
    apply Hnone, sort_Strings_elem_of, Hin.
  - intros (candidate & Hin & Hfold).
    destruct (firstEqualFold (sort_Strings found) name) as [first|] eqn:Hfirst.
    + unfold matched at 1 3 4. rewrite Hfirst. simpl.
      apply firstEqualFold_Some in Hfirst as [Hin' Hfold'].
      split; [reflexivity|]. split; [apply sort_Strings_elem_of, Hin' | exact Hfold'].
    + exfalso. rewrite firstEqualFold_None in Hfirst.
      rewrite (Hfirst candidate) in Hfold; [discriminate|].
      apply sort_Strings_elem_of, Hin.
Qed.

Lemma sort_Strings_length (l : list string) :
  List.length (sort_Strings l) = List.length l.
Proof. symmetry. apply Permutation_length, sort_Strings_Permutation. Qed.

(** X19.  In the automatic mode the names that [GetVMSetNames] returns
    are in order, and there is one for each node that is not a
    master, whether or not two nodes share an availability set. *)
Theorem GetVMSetNames_auto (w : W) (service : Service) (nodes : list Node)
    (modeNames names : list string) :
  getServiceLoadBalancerMode pkg service = (true, true, modeNames) ->
  GetVMSetNames az pkg w service nodes = Done (Some names, None) ->
  Sorted String.le names
  /\ List.length names
     = List.length (List.filter (fun node => negb (isMasterNode node)) nodes)
  /\ names <> [].
Proof.
  intros Hmode Hcall.
  split; [exact (GetVMSetNames_auto_Sorted az pkg w service nodes modeNames names Hmode Hcall)|].
  unfold GetVMSetNames in Hcall. rewrite Hmode in Hcall. simpl in Hcall.
  destruct (getAgentPoolAvailabiliySets az w nodes) as [[[found|] [e|]]|] eqn:Hfound;
    simpl in Hcall; try discriminate.
  destruct (Z.eqb_spec (Z.of_nat (List.length found)) 0) as [|Hlen]; [discriminate|].
  injection Hcall as <-. rewrite sort_Strings_length.
  unfold getAgentPoolAvailabiliySets in Hfound.
  destruct (ListVirtualMachines az w (ResourceGroup az)) as [vms [e|]]; [discriminate|].
  destruct (vmNameToAvailabilitySetID vms ∅) as [m|]; simpl in Hfound; [|discriminate].
  apply agentPoolAvailabilitySetsOf_length in Hfound. simpl in Hfound.
  split; [exact Hfound|].
  intros Hnil. apply (f_equal (@List.length string)) in Hnil.
  rewrite sort_Strings_length in Hnil. simpl in Hnil. lia.
Qed.

Lemma agentPoolAvailabilitySetsOf_filter (m : gmap string string)
    (ids : gset string) (acc : list string) (nodes : list Node) :
  agentPoolAvailabilitySetsOf m ids acc nodes
  = agentPoolAvailabilitySetsOf m ids acc
      (List.filter (fun node => negb (isMasterNode node)) nodes).
Proof.
  revert acc. induction nodes as [|node nodes IH]; intros acc; [reflexivity|].
  cbn [agentPoolAvailabilitySetsOf List.filter].
  destruct (isMasterNode node) eqn:Hmaster; cbn [negb]; [apply IH|].
  cbn [agentPoolAvailabilitySetsOf]. rewrite Hmaster.
  destruct (m !! node_Name node) as [asID|]; [|reflexivity].
  destruct (bool_decide (asID ∈ ids)); [apply IH|].
  destruct (getLastSegment asID "/") as [[asName [e|]]|]; simpl; try reflexivity.
  apply IH.
Qed.

(** The first loop of [getAgentPoolAvailabiliySets] keeps, for a name,
    the availability set of a listed machine of that name. *)
Lemma vmNameToAvailabilitySetID_lookup (vms : list VirtualMachine)
    (m0 m : gmap string string) (name id : string) :
  vmNameToAvailabilitySetID vms m0 = Done m ->
  m !! name = Some id ->
  m0 !! name = Some id
  \/ exists vm, vm ∈ vms /\ vm_Name vm = Some name
                /\ AvailabilitySet vm = Some {| sub_ID := Some id |}.
Proof.
  revert m0. induction vms as [|vm vms IH]; intros m0; cbn [vmNameToAvailabilitySetID].
  - intros [= <-] H. left. exact H.
  - destruct (AvailabilitySet vm) as [[asID]|] eqn:Hset.
    + destruct (vm_Name vm) as [vmName|] eqn:Hname; simpl; [|discriminate].
      destruct asID as [asID|]; simpl; [|discriminate].
      intros Hrest Hlookup.
      destruct (IH _ Hrest Hlookup) as [Hm0 | (vm' & Hin & H)].
      * destruct (decide (vmName = name)) as [->|Hne].
        -- rewrite lookup_insert_eq in Hm0. injection Hm0 as ->.
           right. exists vm. split; [left | auto].
        -- rewrite lookup_insert_ne in Hm0 by exact Hne. left. exact Hm0.
      * right. exists vm'. split; [right; exact Hin | exact H].
    + intros Hrest Hlookup.
      destruct (IH _ Hrest Hlookup) as [Hm0 | (vm' & Hin & H)]; [left; exact Hm0|].
      right. exists vm'. split; [right; exact Hin | exact H].
Qed.

(** A turn of the second loop, the set it consults being empty. *)
Lemma agentPoolAvailabilitySetsOf_cons (m : gmap string string) (acc : list string)
    (node : Node) (nodes : list Node) :
  agentPoolAvailabilitySetsOf m ∅ acc (node :: nodes)
  = if isMasterNode node
    then agentPoolAvailabilitySetsOf m ∅ acc nodes
    else
      match m !! node_Name node with
      | None => Done (None, Some (NodeHasNoAvailabilitySets (node_Name node)))
      | Some asID =>
          bind (getLastSegment asID "/") (fun r =>
            match snd r with
            | Some e => Done (None, Some e)
            | None =>
                agentPoolAvailabilitySetsOf m ∅ (acc ++ [ToLower (fst r)]) nodes
            end)
      end.
Proof.
  cbn [agentPoolAvailabilitySetsOf]. destruct (isMasterNode node); [reflexivity|].
  destruct (m !! node_Name node) as [asID|]; [|reflexivity].
  rewrite bool_decide_eq_false_2 by apply not_elem_of_empty.
  destruct (getLastSegment asID "/") as [[asName [e|]]|]; reflexivity.
Qed.

Lemma agentPoolAvailabilitySetsOf_keeps (m : gmap string string)
    (nodes : list Node) (acc names : list string) (x : string) :
  agentPoolAvailabilitySetsOf m ∅ acc nodes = Done (Some names, None) ->
  x ∈ acc -> x ∈ names.
Proof.
  revert acc. induction nodes as [|node nodes IH]; intros acc.
  - intros [= <-] Hx. exact Hx.
  - rewrite agentPoolAvailabilitySetsOf_cons.
    destruct (isMasterNode node); [apply IH|].
    destruct (m !! node_Name node) as [asID|]; [|discriminate].
    destruct (getLastSegment asID "/") as [[asName [e|]]|]; simpl; try discriminate.
    intros H Hx. apply (IH _ H). apply elem_of_app. left. exact Hx.
Qed.

Lemma agentPoolAvailabilitySetsOf_lookup (m : gmap string string)
    (nodes : list Node) (acc names : list string) (node : Node) :
  agentPoolAvailabilitySetsOf m ∅ acc nodes = Done (Some names, None) ->
  node ∈ nodes ->
  isMasterNode node = false ->
  exists asID asName,
    m !! node_Name node = Some asID
    /\ getLastSegment asID "/" = Done (asName, None)
    /\ ToLower asName ∈ names.
Proof.
  revert acc. induction nodes as [|first nodes IH]; intros acc Hcall Hin Hmaster.
  - inversion Hin.
  - rewrite agentPoolAvailabilitySetsOf_cons in Hcall.
    inversion Hin as [? ? Heq | ? ? ? Hrest]; subst.
    + rewrite Hmaster in Hcall.
      destruct (m !! node_Name first) as [asID|]; [|discriminate].
      destruct (getLastSegment asID "/") as [[asName [e|]]|] eqn:Hsegment;
        simpl in Hcall; try discriminate.
      exists asID, asName. split; [reflexivity|]. split; [exact Hsegment|].
      apply (agentPoolAvailabilitySetsOf_keeps _ _ _ _ _ Hcall).
      apply elem_of_app. right. left.
    + destruct (isMasterNode first); [apply (IH _ Hcall Hrest Hmaster)|].
      destruct (m !! node_Name first) as [asID|]; [|discriminate].
      destruct (getLastSegment asID "/") as [[asName [e|]]|]; simpl in Hcall;
        try discriminate.
      apply (IH _ Hcall Hrest Hmaster).
Qed.

(** X20.  [getAgentPoolAvailabiliySets] does not look at master nodes:
    it gives the same result on the nodes that are not masters.  When
    it succeeds, every such node is the name of a listed machine in an
    availability set, and the lower-cased last segment of the
    identifier of that set is among the names returned. *)
Theorem getAgentPoolAvailabiliySets_nodes (w : W) (nodes : list Node) :
  getAgentPoolAvailabiliySets az w nodes
  = getAgentPoolAvailabiliySets az w
      (List.filter (fun node => negb (isMasterNode node)) nodes)
  /\ (forall names node,
        getAgentPoolAvailabiliySets az w nodes = Done (Some names, None) ->
        node ∈ nodes ->
        isMasterNode node = false ->
        exists vm asID asName,
          vm ∈ fst (ListVirtualMachines az w (ResourceGroup az))
          /\ vm_Name vm = Some (node_Name node)
          /\ AvailabilitySet vm = Some {| sub_ID := Some asID |}
          /\ getLastSegment asID "/" = Done (asName, None)
          /\ ToLower asName ∈ names).
Proof.
  unfold getAgentPoolAvailabiliySets.
  destruct (ListVirtualMachines az w (ResourceGroup az)) as [vms [e|]]; simpl.
  - split; [reflexivity | discriminate].
  - destruct (vmNameToAvailabilitySetID vms ∅) as [m|] eqn:Hm; simpl.
    + split; [apply agentPoolAvailabilitySetsOf_filter|].
      intros names node Hcall Hin Hmaster.
      destruct (agentPoolAvailabilitySetsOf_lookup m nodes [] names node Hcall Hin Hmaster)
        as (asID & asName & Hlookup & Hsegment & Hname).
      destruct (vmNameToAvailabilitySetID_lookup vms ∅ m _ _ Hm Hlookup)
        as [Hempty | (vm & Hvm & Hvmname & Hset)].
      * rewrite lookup_empty in Hempty. discriminate.
      * exists vm, asID, asName. auto.
    + split; [reflexivity | discriminate].
Qed.

End FurtherResolver.

(** ** Storage account names, provider identifiers, private addresses *)

Section Further.

Context {U : Unicode} {W : Type} (az : Cloud W).

(** X21.  [generateStorageAccountName] always returns, and never more
    than 24 bytes: a name of at most 24 bytes is returned whole, a
    longer one is cut to its first 23 bytes.  The identifier taken
    from the UUID holds no dash. *)
Theorem generateStorageAccountName_budget (newUUID accountNamePrefix : string) :
  let uniqueID := ReplaceByte "-" EmptyString newUUID in
  let accountName := ToLower (accountNamePrefix +:+ uniqueID) in
  hasByte "-" uniqueID = false
  /\ exists name,
       generateStorageAccountName newUUID accountNamePrefix = Done name
       /\ len name <= 24
       /\ (len accountName <= 24 -> name = accountName)
       /\ (24 < len accountName ->
           len name = 23 /\ exists cut, accountName = name +:+ cut).
Proof.
  intros uniqueID accountName.
  split; [apply hasByte_ReplaceByte; reflexivity|].
  unfold generateStorageAccountName. fold uniqueID. fold accountName.
  unfold storageAccountNameMaxLength.
  destruct (Z.gtb_spec (len accountName) 24) as [Hgt|Hle].
  - rewrite slice_to_Done by lia.
    destruct (substring_split accountName (Z.to_nat (24 - 1)))
      as (cut & Hsplit & Hlen & _); [unfold len in *; lia|].
    eexists. split; [reflexivity|].
    assert (Hname : len (String.substring 0 (Z.to_nat (24 - 1)) accountName) = 23)
      by (unfold len; rewrite Hlen; lia).
    split; [lia|]. split; [lia|]. intros _. split; [exact Hname | eauto].
  - exists accountName. split; [reflexivity|]. split; [exact Hle|].
    split; [reflexivity | lia].
Qed.



Lemma privateIPsOf_omap (ips : list string) (configs : list InterfaceIPConfiguration) :
  privateIPsOf ips configs = ips ++ omap PrivateIPAddress configs.
Proof.
  revert ips. induction configs as [|config configs IH]; intros ips; simpl.
  - rewrite app_nil_r. reflexivity.
  - destruct (PrivateIPAddress config) as [address|]; rewrite IH; [|reflexivity].
    rewrite <- app_assoc. reflexivity.
Qed.

(** X23.  [GetPrivateIPsByNodeName] returns no address with an error.
    Without one, it returns the private address of every IP
    configuration of the primary interface that has one, in their
    order; the configuration that [getIPConfigByIPFamily] chooses on
    that interface always has its address among them. *)
Theorem GetPrivateIPsByNodeName_addresses (w : W) (name : string)
    (ips : list string) (err : option error) :
  GetPrivateIPsByNodeName az w name = Done (ips, err) ->
  (err <> None -> ips = [])
  /\ (err = None ->
      exists nic configs,
        GetPrimaryInterface az w name = Done (nic, None)
        /\ IPConfigurations nic = Some configs
        /\ ips = omap PrivateIPAddress configs
        /\ forall v6 i,
             getIPConfigByIPFamily nic v6 = Done (Some i, None) ->
             exists config address,
               configs !! i = Some config
               /\ PrivateIPAddress config = Some address
               /\ address ∈ ips).
Proof.
  unfold GetPrivateIPsByNodeName.
  destruct (GetPrimaryInterface az w name) as [[nic [e|]]|] eqn:Hnic; simpl;
    [intros [= <- <-]; split; [reflexivity | discriminate] | | discriminate].
  destruct (IPConfigurations nic) as [configs|] eqn:Hconfigs.
  - intros [= <- <-]. split; [congruence|]. intros _.
    exists nic, configs. split; [reflexivity|]. split; [exact Hconfigs|].
    rewrite privateIPsOf_omap. split; [reflexivity|].
    intros v6 i Hchoice.
    unfold getIPConfigByIPFamily in Hchoice. rewrite Hconfigs in Hchoice.
    destruct (ipConfigOfVersionFrom (if v6 then IPv6 else IPv4) 0 configs)
      as [k|] eqn:Hfrom; [|destruct (nic_Name nic); discriminate].
    injection Hchoice as ->.
    apply ipConfigOfVersionFrom_first in Hfrom
      as (j & config & -> & Hlookup & Haddress & _).
    destruct (PrivateIPAddress config) as [address|] eqn:Ha; [|contradiction].
    exists config, address. split; [exact Hlookup|]. split; [exact Ha|].
    apply list_elem_of_omap. exists config. split; [|exact Ha].
    apply list_elem_of_lookup_2 with j. exact Hlookup.
  - destruct (nic_Name nic); simpl; [|discriminate].
    intros [= <- <-]. split; [reflexivity | discriminate].
Qed.


End Further.

(** ** The further properties on the example cloud *)

Lemma serviceOwnsFrontendIP_own_name_witness :
  serviceOwnsFrontendIP (exampleCloud false)
    {| fip_Name :=
         Some "a0123456789abcdef0123456789abcde-subnet-0123456789-0123456789-0123456789x" |}
    subnetService
  = Done true.
Proof.
  apply (serviceOwnsFrontendIP_own_name (exampleCloud false) examplePackage subnetService).
  - reflexivity.
  - right. apply Z.leb_le. reflexivity.
Defined.

Lemma serviceOwnsRule_own_rule_name_witness :
  serviceOwnsRule (exampleCloud false) plainService "web-TCP-80" = true.
Proof.
  apply (serviceOwnsRule_own_rule_name (exampleCloud false) examplePackage
           plainService "TCP" 80); reflexivity.
Defined.

Lemma getSecurityRuleName_no_slash_witness :
  hasByte "/"
    (getSecurityRuleName (exampleCloud false) neverShared plainService tcp80 "10.0.0.0/24")
  = false.
Proof.
  apply (getSecurityRuleName_no_slash (exampleCloud false) neverShared); reflexivity.
Defined.

Lemma getSecurityRuleName_shared_or_owned_witness :
  serviceOwnsRule (exampleCloud false) plainService
    (getSecurityRuleName (exampleCloud false) neverShared plainService tcp80 "10.0.0.0/24")
  = true.
Proof.
  apply (getSecurityRuleName_shared_or_owned (exampleCloud false) neverShared
           plainService plainService tcp80 "10.0.0.0/24"); reflexivity.
Defined.

Lemma mapLoadBalancerNameToVMSet_getAzureLoadBalancerName_witness :
  mapLoadBalancerNameToVMSet exampleSettings
    (getAzureLoadBalancerName (exampleCloud false) exampleSettings "kubernetes" "as-b" true)
    "kubernetes"
  = "as-b".
Proof.
  apply (proj2 (mapLoadBalancerNameToVMSet_getAzureLoadBalancerName (exampleCloud false)
                  exampleSettings "kubernetes" "as-b" true eq_refl ltac:(discriminate)));
    reflexivity.
Defined.




Lemma getPrimaryIPConfig_choice_witness :
  getPrimaryIPConfig dualNic = Done (Some 1%nat, None).
Proof.
  apply (proj2 (getPrimaryIPConfig_choice dualNic _ 1%nat eq_refl)).
  - discriminate.
  - eexists. split; [reflexivity|]. split; [reflexivity|].
    intros [|[|j]] c Hj Hc; [injection Hc as <-; reflexivity | lia | lia].
Defined.

Lemma getIPConfigByIPFamily_choice_witness :
  getIPConfigByIPFamily dualNic true = Done (Some 1%nat, None).
Proof.
  apply (proj1 (getIPConfigByIPFamily_choice dualNic _ true 1%nat eq_refl)).
  eexists. split; [reflexivity|]. split; [discriminate|]. split; [reflexivity|].
  intros [|[|j]] c Hj Hc; [injection Hc as <-; right; discriminate | lia | lia].
Defined.

Lemma getPrimaryInterfaceWithVMSet_standard_witness :
  getPrimaryInterfaceWithVMSet (exampleCloud true) exampleWorld "n1" "as-b"
  = GetPrimaryInterface (exampleCloud true) exampleWorld "n1".
Proof.
  apply (getPrimaryInterfaceWithVMSet_standard (exampleCloud true)). reflexivity.
Defined.

Lemma EnsureHostInPool_not_in_vmSet_witness :
  EnsureHostInPool (exampleCloud false) examplePackage exampleWorld plainService
    "n2" (poolID "lb1" "bar") "as-a" false
  = Done (exampleWorld, [], hostResult None).
Proof.
  apply (EnsureHostInPool_not_in_vmSet (exampleCloud false) examplePackage exampleWorld
           plainService "n2" (poolID "lb1" "bar") "as-a" false
           (machineIn "n2" "as-b" "n2-nic") (nicID "n2-nic") "n2-nic" "rg").
  - reflexivity.
  - discriminate.
  - reflexivity.
  - reflexivity.
  - vm_compute. reflexivity.
  - reflexivity.
  - right. eexists. split; [reflexivity | vm_compute; reflexivity].
Defined.


Lemma EnsureHostInPool_appends_witness :
  EnsureHostInPool (exampleCloud false) examplePackage exampleWorld plainService
    "n1" (poolID "lb2" "foo") EmptyString false
  = Done (joinedWorld, [nicWith "n1-nic" (Some [poolOf (poolID "lb2" "foo")])],
          hostResult None).
Proof.
  apply (EnsureHostInPool_appends (exampleCloud false) examplePackage exampleWorld
           plainService "n1" (poolID "lb2" "foo") EmptyString false
           (nicWith "n1-nic" None) 0%nat
           [ {| Primary := Some true;
                PrivateIPAddress := Some "10.240.0.4";
                PrivateIPAddressVersion := IPv4;
                LoadBalancerBackendAddressPools := None |} ]
           {| Primary := Some true;
              PrivateIPAddress := Some "10.240.0.4";
              PrivateIPAddressVersion := IPv4;
              LoadBalancerBackendAddressPools := None |}).
  - vm_compute. reflexivity.
  - reflexivity.
  - discriminate.
  - reflexivity.
  - reflexivity.
  - reflexivity.
  - intros pool Hin. inversion Hin.
  - left. reflexivity.
Defined.

Lemma GetVMSetNames_explicit_witness :
  GetVMSetNames (exampleCloud false) examplePackage exampleWorld
    (explicitService "AS-B,as-z") [nodeNamed "n1"; nodeNamed "n2"]
  = Done (Some ["as-b"; "as-z"], None).
Proof.
  apply (proj2 (GetVMSetNames_explicit (exampleCloud false) examplePackage exampleWorld
                  (explicitService "AS-B,as-z") [nodeNamed "n1"; nodeNamed "n2"]
                  "AS-B" ["as-z"] ["as-a"; "as-b"] eq_refl eq_refl
                  ltac:(discriminate))).
  exists "as-b". split; [right; left | reflexivity].
Defined.

Lemma GetVMSetNames_auto_witness :
  Sorted String.le ["as-a"; "as-b"]
  /\ List.length ["as-a"; "as-b"]
     = List.length (List.filter (fun node => negb (isMasterNode node))
                      [nodeNamed "n1"; masterNamed "m0"; nodeNamed "n2"])
  /\ ["as-a"; "as-b"] <> [].
Proof.
  apply (GetVMSetNames_auto (exampleCloud false) examplePackage exampleWorld autoService
           [nodeNamed "n1"; masterNamed "m0"; nodeNamed "n2"] []).
  - reflexivity.
  - vm_compute. reflexivity.
Defined.

Lemma getAgentPoolAvailabiliySets_nodes_witness :
  exists vm asID asName,
    vm ∈ fst (ListVirtualMachines (exampleCloud false) exampleWorld
                (ResourceGroup (exampleCloud false)))
    /\ vm_Name vm = Some (node_Name (nodeNamed "n2"))
    /\ AvailabilitySet vm = Some {| sub_ID := Some asID |}
    /\ getLastSegment asID "/" = Done (asName, None)
    /\ ToLower asName ∈ ["as-a"; "as-b"].
Proof.
  apply (proj2 (getAgentPoolAvailabiliySets_nodes (exampleCloud false) exampleWorld
                  [nodeNamed "n1"; nodeNamed "n2"])).
  - vm_compute. reflexivity.
  - right. left.
  - reflexivity.
Defined.

Lemma GetPrivateIPsByNodeName_addresses_witness :
  (@None error <> None -> ["10.240.0.4"] = @nil string)
  /\ (@None error = None ->
      exists nic configs,
        GetPrimaryInterface (exampleCloud false) exampleWorld "n2" = Done (nic, None)
        /\ IPConfigurations nic = Some configs
        /\ ["10.240.0.4"] = omap PrivateIPAddress configs
        /\ forall v6 i,
             getIPConfigByIPFamily nic v6 = Done (Some i, None) ->
             exists config address,
               configs !! i = Some config
               /\ PrivateIPAddress config = Some address
               /\ address ∈ ["10.240.0.4"]).
Proof.
  apply (GetPrivateIPsByNodeName_addresses (exampleCloud false) exampleWorld "n2").
  vm_compute. reflexivity.
Defined.

Lemma getPrimaryInterfaceID_choice_witness :
  getPrimaryInterfaceID dualMachine = Done (nicID "n4-nic-b", None).
Proof.
  apply (proj1 (proj2 (getPrimaryInterfaceID_choice dualMachine _ (nicID "n4-nic-b") eq_refl)
                  ltac:(discriminate))).
  exists 1%nat. eexists. split; [reflexivity|]. split; [reflexivity|]. split; [reflexivity|].
  intros [|[|j']] r Hj' Hr; [injection Hr as <-; reflexivity | lia | lia].
Defined.


Lemma getFrontendIPConfigName_budget_witness :
  exists name,
    getFrontendIPConfigName (exampleCloud false) examplePackage longService = Done name
    /\ len name <= 80.
Proof.
  destruct (getFrontendIPConfigName_budget (exampleCloud false) examplePackage longService)
    as (name & Hname & _ & Hsub).
  exists name. split; [exact Hname|]. apply (Hsub "subnet"). reflexivity.
Defined.

Lemma generateStorageAccountName_budget_witness :
  exists name,
    generateStorageAccountName "123e4567-e89b-12d3-a456-426614174000" "pvc" = Done name
    /\ len name = 23.
Proof.
  destruct (generateStorageAccountName_budget "123e4567-e89b-12d3-a456-426614174000" "pvc")
    as (_ & name & Hname & _ & _ & Hlong).
  exists name. split; [exact Hname|]. apply Hlong. apply Z.ltb_lt. reflexivity.
Defined.
